(** * opencode-sessions: the deferred-action engine of [src/index.ts]

    A shallow embedding of the session plugin: the three pending-state
    stores, the [event] hook (the event reactor) and the [execute] function
    of the [session] tool (the workflow engine), followed by the properties
    of the specification that concern them.

    Conventions of the embedding.
    - A JavaScript value of type [string | undefined] is an [option string];
      [truthy] is JavaScript truthiness on such values ([undefined] and the
      empty string are falsy).  The fields the plugin reads from the [info]
      of a message through [as any] are taken at the types the plugin stores
      them at: [agent], [modelID], [providerID] and [system] are
      [string | undefined], and [tools], when present, is a permission map.
    - The three [Map]s are [gmap string _].
    - Every awaited call on [ctx.client] either returns or throws; what it
      does is given by a [Client] record, the behaviour of the backend during
      one run of a handler.  Each run records the calls it issues, in order,
      with their outcome.  The 100 ms timer is recorded as a call.
    - The promise of [session.summarize] is not awaited: the call is
      recorded, and the rejection of the promise runs [summarize_catch] as a
      later step.
    - A handler runs from start to end without another handler running in
      between (calls of the tool and deliveries of events are sequential). *)

From stdpp Require Import gmap strings list pretty sorting.
From Stdlib Require Import Ascii NArith.

Local Open Scope string_scope.

(** ** JavaScript values *)

(** Truthiness of a [string | undefined]. *)
Definition truthy (v : option string) : bool :=
  match v with
  | Some s => negb (String.eqb s EmptyString)
  | None => false
  end.

(** [a || b] on [string | undefined]. *)
Definition js_or (a b : option string) : option string :=
  if truthy a then a else b.

Infix "|||" := js_or (at level 50, left associativity).

(** [a || d] where [d] is a string: the result is a string. *)
Definition js_or_string (a : option string) (d : string) : string :=
  match a with
  | Some s => if String.eqb s EmptyString then d else s
  | None => d
  end.

(** A value spliced into a template literal. *)
Definition template (v : option string) : string :=
  match v with
  | Some s => s
  | None => "undefined"
  end.

(** Truthiness of a [boolean | undefined]. *)
Definition truthy_bool (v : option bool) : bool :=
  match v with
  | Some b => b
  | None => false
  end.

(** What a [throw] carries: an [Error] object with its [message], or any
    other value, of which only [String(value)] is observed. *)
Inductive Thrown : Type :=
| ErrorObject (message : string)
| OtherValue (asString : string).

(** [error instanceof Error ? error.message : String(error)] *)
Definition error_message (error : Thrown) : string :=
  match error with
  | ErrorObject message => message
  | OtherValue asString => asString
  end.

(** ** JSON values, as [JSON.parse] returns them

    A string is its sequence of UTF-16 code units; a number is kept as its
    lexeme; an object keeps its members in insertion order. *)
#[warnings="-register-all"]
Inductive JSON : Type :=
| JNull
| JBool (b : bool)
| JNumber (lexeme : string)
| JString (units : list N)
| JArray (items : list JSON)
| JObject (members : list (list N * JSON)).

(** ** Data model *)

(** The tool-permission map of a message, in structured form. *)
Definition Permissions : Type := list (string * bool).

(** The [info] of a message of the session, as far as the plugin reads it. *)
Module Message.
Record t : Type := mk {
  role : string;
  agent : option string;
  modelID : option string;
  providerID : option string;
  system : option string;
  tools : option Permissions
}.
End Message.

Module CompactionRequest.
Record t : Type := mk {
  providerID : string;
  modelID : string;
  agent : option string;
  system : option string;
  tools : option string;
  text : string;
  directory : string
}.
End CompactionRequest.

Module CompactionState.
Record t : Type := mk {
  phase : string;
  agent : option string;
  modelID : option string;
  providerID : option string;
  system : option string;
  tools : option string;
  text : string;
  directory : string
}.
End CompactionState.

Module PendingMessage.
Record t : Type := mk {
  agent : option string;
  modelID : option string;
  providerID : option string;
  system : option string;
  tools : option string;
  text : string;
  directory : string
}.
End PendingMessage.

(** The [model] field of a prompt body. *)
Module Model.
Record t : Type := mk {
  modelID : option string;
  providerID : option string
}.
End Model.

Inductive Part : Type :=
| TextPart (text : string).

(** The [body] of [session.prompt] and [session.promptAsync]. *)
Module Body.
Record t : Type := mk {
  noReply : option bool;
  agent : option string;
  model : option Model.t;
  system : option string;
  tools : option JSON;
  parts : list Part
}.
End Body.

Inductive Mode : Type :=
| message
| new
| compact
| fork.

(** The arguments of the [session] tool. *)
Module Args.
Record t : Type := mk {
  text : string;
  mode : Mode;
  agent : option string;
  directory : option string;
  title : option string;
  modelID : option string;
  providerID : option string;
  system : option string;
  tools : option string;
  async : option bool
}.
End Args.

Module ToolCtx.
Record t : Type := mk {
  sessionID : string;
  directory : string
}.
End ToolCtx.

(** An event of the backend: its [type], and [properties.sessionID] when
    the event has properties with a session identifier. *)
Module Event.
Record t : Type := mk {
  type : string;
  sessionID : option string
}.
End Event.

(** The three stores of the plugin closure. *)
Record Stores : Type := mkStores {
  pendingMessages : gmap string PendingMessage.t;
  pendingCompactions : gmap string CompactionRequest.t;
  activeCompactions : gmap string CompactionState.t
}.

(** ** The backend *)

(** The calls a handler issues, with their arguments. *)
Inductive Call : Type :=
| SessionMessages (id directory : string)
| SessionCreate (directory title : string)
| SessionPrompt (id directory : string) (body : Body.t)
| SessionPromptAsync (id directory : string) (body : Body.t)
| SessionSummarize (id directory providerID modelID : string)
| SessionFork (id directory : string)
| SessionUpdate (id directory title : string)
| ShowToast (message variant : string)
| SetTimeout (ms : nat).

(** How a call ended for the handler that issued it. *)
Inductive Outcome : Type :=
| Returned
| Threw (error : Thrown)
| NotAwaited.

(** [ctx.client] during one run of a handler.  [session_create] and
    [session_fork] return the [data.id] of the session; a response without
    it makes the handler throw at the place of the call, which is a
    thrown outcome here. *)
Record Client : Type := mkClient {
  session_messages : string -> string -> Thrown + list Message.t;
  session_create : string -> string -> Thrown + string;
  session_prompt : string -> string -> Body.t -> Thrown + unit;
  session_promptAsync : string -> string -> Body.t -> Thrown + unit;
  session_fork : string -> string -> Thrown + string;
  session_update : string -> string -> string -> Thrown + unit;
  tui_showToast : string -> string -> Thrown + unit
}.

(** ** The monad of handlers: stores, call log, exceptions *)

Record Run (A : Type) : Type := mkRun {
  result : Thrown + A;
  stores : Stores;
  calls : list (Call * Outcome)
}.
Arguments mkRun {A} _ _ _.
Arguments result {A} _.
Arguments stores {A} _.
Arguments calls {A} _.

Definition M (A : Type) : Type := Stores -> Run A.

Definition ret {A} (a : A) : M A :=
  fun st => mkRun (inr a) st [].

Definition throw {A} (error : Thrown) : M A :=
  fun st => mkRun (inl error) st [].

Definition bind {A B} (m : M A) (k : A -> M B) : M B :=
  fun st =>
    match m st with
    | mkRun (inl error) st1 calls1 => mkRun (inl error) st1 calls1
    | mkRun (inr a) st1 calls1 =>
        match k a st1 with
        | mkRun result2 st2 calls2 => mkRun result2 st2 (calls1 ++ calls2)
        end
    end.

(** [try { body } catch (error) { handler }]: what [body] did to the stores
    and the calls it issued remain. *)
Definition try_catch {A} (body : M A) (handler : Thrown -> M A) : M A :=
  fun st =>
    match body st with
    | mkRun (inl error) st1 calls1 =>
        match handler error st1 with
        | mkRun result2 st2 calls2 => mkRun result2 st2 (calls1 ++ calls2)
        end
    | mkRun (inr a) st1 calls1 => mkRun (inr a) st1 calls1
    end.

Definition get : M Stores :=
  fun st => mkRun (inr st) st [].

Definition put (st : Stores) : M unit :=
  fun _ => mkRun (inr tt) st [].

(** An awaited call: logged with its outcome, which it also delivers. *)
Definition await {A} (c : Call) (answer : Thrown + A) : M A :=
  fun st =>
    match answer with
    | inl error => mkRun (inl error) st [(c, Threw error)]
    | inr a => mkRun (inr a) st [(c, Returned)]
    end.

(** A call whose promise is not awaited. *)
Definition detach (c : Call) : M unit :=
  fun st => mkRun (inr tt) st [(c, NotAwaited)].

(** A pure computation that may throw ([JSON.parse]). *)
Definition lift {A} (v : Thrown + A) : M A :=
  fun st => mkRun v st [].

Declare Scope js_scope.
Delimit Scope js_scope with js.
Notation "x <- m ;; k" := (bind m (fun x => k))
  (at level 100, m at next level, right associativity) : js_scope.
Notation "m ;; k" := (bind m (fun _ => k))
  (at level 100, right associativity) : js_scope.
Local Open Scope js_scope.

Definition set_pendingMessages (f : gmap string PendingMessage.t -> gmap string PendingMessage.t) : M unit :=
  st <- get ;;
  put (mkStores (f (pendingMessages st)) (pendingCompactions st) (activeCompactions st)).

Definition set_pendingCompactions (f : gmap string CompactionRequest.t -> gmap string CompactionRequest.t) : M unit :=
  st <- get ;;
  put (mkStores (pendingMessages st) (f (pendingCompactions st)) (activeCompactions st)).

Definition set_activeCompactions (f : gmap string CompactionState.t -> gmap string CompactionState.t) : M unit :=
  st <- get ;;
  put (mkStores (pendingMessages st) (pendingCompactions st) (f (activeCompactions st))).

(** ** The plugin

    [ctx.client], [JSON.parse] and [JSON.stringify] are what the closure of
    [SessionPlugin] is built over. *)
Section Plugin.

Variable client : Client.
Variable JSON_parse : string -> Thrown + JSON.
Variable JSON_stringify : Permissions -> string.

(** [tools ? JSON.parse(tools) : undefined] *)
Definition parse_tools (tools : option string) : M (option JSON) :=
  if truthy tools
  then lift (match JSON_parse (template tools) with
             | inl error => inl error
             | inr v => inr (Some v)
             end)
  else ret None.

(** [modelID && providerID ? { modelID, providerID } : undefined] *)
Definition model_if_both (modelID providerID : option string) : option Model.t :=
  if truthy modelID && truthy providerID
  then Some (Model.mk modelID providerID)
  else None.

Definition prompt (id directory : string) (body : Body.t) : M unit :=
  await (SessionPrompt id directory body) (session_prompt client id directory body).

Definition promptAsync (id directory : string) (body : Body.t) : M unit :=
  await (SessionPromptAsync id directory body) (session_promptAsync client id directory body).

(** The [.catch] callback attached to the promise of [session.summarize];
    it runs, as a step of its own, when that promise is rejected. *)
Definition summarize_catch (sessionID : string) (error : Thrown) : M unit :=
  set_activeCompactions (delete sessionID).

(** The [session.idle] part of the [event] hook; the result says whether
    the hook returned from inside it. *)
Definition event_idle (sessionID : string) : M bool :=
  st <- get ;;
  match pendingMessages st !! sessionID with
  | Some pendingMessage =>
      set_pendingMessages (delete sessionID) ;;
      try_catch
        (tools <- parse_tools (PendingMessage.tools pendingMessage) ;;
         prompt sessionID (PendingMessage.directory pendingMessage)
           (Body.mk None
              (PendingMessage.agent pendingMessage)
              (model_if_both (PendingMessage.modelID pendingMessage)
                             (PendingMessage.providerID pendingMessage))
              (PendingMessage.system pendingMessage)
              tools
              [TextPart (PendingMessage.text pendingMessage)]))
        (fun error => ret tt) ;;
      ret true
  | None =>
      match pendingCompactions st !! sessionID with
      | Some pendingCompaction =>
          set_pendingCompactions (delete sessionID) ;;
          set_activeCompactions
            (insert sessionID
               (CompactionState.mk "compacting"
                  (CompactionRequest.agent pendingCompaction)
                  (Some (CompactionRequest.modelID pendingCompaction))
                  (Some (CompactionRequest.providerID pendingCompaction))
                  (CompactionRequest.system pendingCompaction)
                  (CompactionRequest.tools pendingCompaction)
                  (CompactionRequest.text pendingCompaction)
                  (CompactionRequest.directory pendingCompaction))) ;;
          detach (SessionSummarize sessionID
                    (CompactionRequest.directory pendingCompaction)
                    (CompactionRequest.providerID pendingCompaction)
                    (CompactionRequest.modelID pendingCompaction)) ;;
          ret true
      | None => ret false
      end
  end.

(** The [session.compacted] part of the [event] hook. *)
Definition event_compacted (sessionID : string) : M unit :=
  st <- get ;;
  match activeCompactions st !! sessionID with
  | Some state =>
      set_activeCompactions (delete sessionID) ;;
      await (SetTimeout 100) (inr tt) ;;
      try_catch
        (tools <- parse_tools (CompactionState.tools state) ;;
         prompt sessionID (CompactionState.directory state)
           (Body.mk None
              (CompactionState.agent state)
              (model_if_both (CompactionState.modelID state)
                             (CompactionState.providerID state))
              (CompactionState.system state)
              tools
              [TextPart (CompactionState.text state)]))
        (fun error => ret tt)
  | None => ret tt
  end.

(** The [event] hook. *)
Definition event (ev : Event.t) : M unit :=
  match Event.sessionID ev with
  | None => ret tt
  | Some sessionID =>
      returned <- (if String.eqb (Event.type ev) "session.idle"
                   then event_idle sessionID
                   else ret false) ;;
      if (returned : bool) then ret tt
      else if String.eqb (Event.type ev) "session.compacted"
           then event_compacted sessionID
           else ret tt
  end.

(** [msgs.data.filter((m) => m.info.role === "assistant").pop()] *)
Definition lastAssistant (msgs : list Message.t) : option Message.t :=
  last (filter (fun m => Message.role m = "assistant") msgs).

(** [(lastAssistant?.info as any)?.field] *)
Definition inherited (field : Message.t -> option string) (msgs : list Message.t) : option string :=
  match lastAssistant msgs with
  | Some m => field m
  | None => None
  end.

(** [info.tools ? JSON.stringify(info.tools) : undefined]; a permission map
    is an object, hence truthy. *)
Definition inheritedTools (msgs : list Message.t) : option string :=
  match lastAssistant msgs with
  | Some m =>
      match Message.tools m with
      | Some permissions => Some (JSON_stringify permissions)
      | None => None
      end
  | None => None
  end.

(** The [model] of the first prompt of modes [new] and [fork]. *)
Definition model_of (modelID providerID : option string) : option Model.t :=
  if truthy modelID
  then Some (Model.mk modelID providerID)
  else None.

(** The first prompt into a created or forked session. *)
Definition first_prompt (async : option bool) (id directory : string) (body : Body.t) : M unit :=
  if truthy_bool async
  then promptAsync id directory body
  else prompt id directory body.

(** The body of the [try] of [execute]. *)
Definition execute_body (args : Args.t) (toolCtx : ToolCtx.t) : M string :=
  let targetDirectory := js_or_string (Args.directory args) (ToolCtx.directory toolCtx) in
  msgs <- await (SessionMessages (ToolCtx.sessionID toolCtx) (ToolCtx.directory toolCtx))
                (session_messages client (ToolCtx.sessionID toolCtx) (ToolCtx.directory toolCtx)) ;;
  let inheritedAgent := inherited Message.agent msgs in
  let inheritedModelID := inherited Message.modelID msgs in
  let inheritedProviderID := inherited Message.providerID msgs in
  let inheritedSystem := inherited Message.system msgs in
  let inheritedTools := inheritedTools msgs in
  match Args.mode args with
  | message =>
      set_pendingMessages
        (insert (ToolCtx.sessionID toolCtx)
           (PendingMessage.mk
              (Args.agent args ||| inheritedAgent)
              (Args.modelID args ||| inheritedModelID)
              (Args.providerID args ||| inheritedProviderID)
              (Args.system args ||| inheritedSystem)
              (Args.tools args ||| inheritedTools)
              (Args.text args)
              targetDirectory)) ;;
      ret (if truthy (Args.agent args)
           then "Message sent to " +:+ template (Args.agent args)
                +:+ " agent. They will respond in this conversation."
           else "Message sent. Awaiting response in this conversation.")
  | new =>
      let title :=
        js_or_string (Args.title args)
          (if truthy (Args.agent args ||| inheritedAgent)
           then "Session via " +:+ template (Args.agent args ||| inheritedAgent)
           else "New session") in
      newSession <- await (SessionCreate targetDirectory title)
                          (session_create client targetDirectory title) ;;
      let agent := js_or_string (Args.agent args ||| inheritedAgent) "build" in
      let system := Args.system args ||| inheritedSystem in
      let tools := Args.tools args ||| inheritedTools in
      parsed <- parse_tools tools ;;
      first_prompt (Args.async args) newSession targetDirectory
        (Body.mk None (Some agent)
           (model_of (Args.modelID args ||| inheritedModelID)
                     (Args.providerID args ||| inheritedProviderID))
           system parsed [TextPart (Args.text args)]) ;;
      ret (if truthy_bool (Args.async args)
           then "New session created with " +:+ agent
                +:+ " agent (async prompt, ID: " +:+ newSession +:+ ")"
           else "New session created with " +:+ agent
                +:+ " agent (ID: " +:+ newSession +:+ ")")
  | compact =>
      try_catch
        (let providerID := Args.providerID args ||| inheritedProviderID in
         let modelID := Args.modelID args ||| inheritedModelID in
         if negb (truthy providerID) || negb (truthy modelID)
         then ret "Error: No assistant messages found in session. Cannot determine model for compaction."
         else
           prompt (ToolCtx.sessionID toolCtx) targetDirectory
             (Body.mk (Some true) None None None None
                [TextPart
                   (if truthy (Args.agent args)
                    then "[Session will compact after this response - "
                         +:+ template (Args.agent args) +:+ " agent will continue]"
                    else "[Session will compact after this response]")]) ;;
           set_pendingCompactions
             (insert (ToolCtx.sessionID toolCtx)
                (CompactionRequest.mk
                   (template providerID)
                   (template modelID)
                   (Args.agent args ||| inheritedAgent)
                   (Args.system args ||| inheritedSystem)
                   (Args.tools args ||| inheritedTools)
                   (Args.text args)
                   targetDirectory)) ;;
           ret (if truthy (Args.agent args)
                then "I'll compact the session after completing this response, then hand off to "
                     +:+ template (Args.agent args) +:+ "."
                else "I'll compact the session after completing this response."))
        (fun error => throw error)
  | fork =>
      forkedSession <- await (SessionFork (ToolCtx.sessionID toolCtx) targetDirectory)
                             (session_fork client (ToolCtx.sessionID toolCtx) targetDirectory) ;;
      (if truthy (Args.title args)
       then await (SessionUpdate forkedSession targetDirectory (template (Args.title args)))
                  (session_update client forkedSession targetDirectory (template (Args.title args)))
       else ret tt) ;;
      let forkedAgent := js_or_string (Args.agent args ||| inheritedAgent) "build" in
      let forkedSystem := Args.system args ||| inheritedSystem in
      let forkedTools := Args.tools args ||| inheritedTools in
      parsed <- parse_tools forkedTools ;;
      first_prompt (Args.async args) forkedSession targetDirectory
        (Body.mk None (Some forkedAgent)
           (model_of (Args.modelID args ||| inheritedModelID)
                     (Args.providerID args ||| inheritedProviderID))
           forkedSystem parsed [TextPart (Args.text args)]) ;;
      ret (if truthy_bool (Args.async args)
           then "Forked session with " +:+ forkedAgent
                +:+ " agent (async prompt) - history preserved (ID: " +:+ forkedSession +:+ ")"
           else "Forked session with " +:+ forkedAgent
                +:+ " agent - history preserved (ID: " +:+ forkedSession +:+ ")")
  end.

(** [execute] of the [session] tool: the [try] and its [catch]. *)
Definition execute (args : Args.t) (toolCtx : ToolCtx.t) : M string :=
  try_catch (execute_body args toolCtx)
    (fun error =>
       let message := error_message error in
       await (ShowToast ("Session operation failed: " +:+ message) "error")
             (tui_showToast client ("Session operation failed: " +:+ message) "error") ;;
       ret ("Error: " +:+ message)).

End Plugin.

(** ** [JSON.parse] and [JSON.stringify]

    The properties below hold for every parser and every serializer; the
    concrete runs use these two, which follow the JSON grammar of ECMA-404.
    A string of the embedding is read as the sequence of its characters'
    codes. *)
Module JSON_.

Local Open Scope char_scope.

(** The double quote, code 34. *)
Abbreviation dquote := (Ascii false true false false false true false false).

Definition is_ws (c : ascii) : bool :=
  Ascii.eqb c " " || Ascii.eqb c "009" || Ascii.eqb c "010" || Ascii.eqb c "013".

Definition is_digit (c : ascii) : bool :=
  (N.leb 48 (N_of_ascii c) && N.leb (N_of_ascii c) 57)%bool.

Definition hex_value (c : ascii) : option N :=
  let n := N_of_ascii c in
  if (N.leb 48 n && N.leb n 57)%bool then Some (n - 48)%N
  else if (N.leb 65 n && N.leb n 70)%bool then Some (n - 55)%N
  else if (N.leb 97 n && N.leb n 102)%bool then Some (n - 87)%N
  else None.

Fixpoint skip_ws (s : string) : string :=
  match s with
  | String c r => if is_ws c then skip_ws r else s
  | EmptyString => s
  end.

(** [strip p s] is what follows the prefix [p] of [s]. *)
Fixpoint strip (p s : string) : option string :=
  match p, s with
  | EmptyString, _ => Some s
  | String a p', String b s' => if Ascii.eqb a b then strip p' s' else None
  | String _ _, EmptyString => None
  end.

(** The first of the prefixes [ps] that [s] starts with, and what follows it. *)
Fixpoint one_of (ps : list string) (s : string) : option (string * string) :=
  match ps with
  | [] => None
  | p :: ps' =>
      match strip p s with
      | Some r => Some (p, r)
      | None => one_of ps' s
      end
  end.

(** An optional prefix among [ps]. *)
Definition optional (ps : list string) (s : string) : string * string :=
  match one_of ps s with
  | Some found => found
  | None => (EmptyString, s)
  end.

(** The longest prefix of digits, and what follows it. *)
Fixpoint digits (s : string) : string * string :=
  match s with
  | String c r =>
      if is_digit c
      then let '(ds, r') := digits r in (String c ds, r')
      else (EmptyString, s)
  | EmptyString => (EmptyString, s)
  end.

Definition is_empty (s : string) : bool :=
  match s with
  | EmptyString => true
  | String _ _ => false
  end.

(** One or more digits. *)
Definition digits1 (s : string) : option (string * string) :=
  let '(ds, r) := digits s in
  if is_empty ds then None else Some (ds, r).

(** A number: an optional minus sign; a zero, or a digit from 1 to 9 followed
    by digits; optionally a dot and one or more digits; optionally an [e] or
    [E], an optional sign and one or more digits. *)
Definition parse_number (s : string) : option (string * string) :=
  let '(sign, s1) := optional ["-"%string] s in
  match (match one_of ["0"%string] s1 with
         | Some zero => Some zero
         | None => digits1 s1
         end) with
  | None => None
  | Some (int, s2) =>
      match (match one_of ["."%string] s2 with
             | Some (dot, r) =>
                 match digits1 r with
                 | Some (ds, r') => Some (dot +:+ ds, r')
                 | None => None
                 end
             | None => Some (EmptyString, s2)
             end) with
      | None => None
      | Some (frac, s3) =>
          match (match one_of ["e"%string; "E"%string] s3 with
                 | Some (e, r) =>
                     let '(esign, r1) := optional ["+"%string; "-"%string] r in
                     match digits1 r1 with
                     | Some (ds, r2) => Some (e +:+ esign +:+ ds, r2)
                     | None => None
                     end
                 | None => Some (EmptyString, s3)
                 end) with
          | None => None
          | Some (exp, s4) => Some (sign +:+ int +:+ frac +:+ exp, s4)
          end
      end
  end.

(** The characters of a string literal after its opening quote. *)
Fixpoint parse_chars (s : string) (acc : list N) : option (list N * string) :=
  match s with
  | EmptyString => None
  | String c r =>
      if Ascii.eqb c dquote then Some (rev acc, r)
      else if Ascii.eqb c "\" then
        match r with
        | String e r' =>
            if Ascii.eqb e dquote then parse_chars r' (34%N :: acc)
            else if Ascii.eqb e "\" then parse_chars r' (92%N :: acc)
            else if Ascii.eqb e "/" then parse_chars r' (47%N :: acc)
            else if Ascii.eqb e "b" then parse_chars r' (8%N :: acc)
            else if Ascii.eqb e "f" then parse_chars r' (12%N :: acc)
            else if Ascii.eqb e "n" then parse_chars r' (10%N :: acc)
            else if Ascii.eqb e "r" then parse_chars r' (13%N :: acc)
            else if Ascii.eqb e "t" then parse_chars r' (9%N :: acc)
            else if Ascii.eqb e "u" then
              match r' with
              | String h1 (String h2 (String h3 (String h4 r''))) =>
                  match hex_value h1, hex_value h2, hex_value h3, hex_value h4 with
                  | Some a, Some b, Some c', Some d =>
                      parse_chars r'' ((a * 4096 + b * 256 + c' * 16 + d)%N :: acc)
                  | _, _, _, _ => None
                  end
              | _ => None
              end
            else None
        | EmptyString => None
        end
      else if N.ltb (N_of_ascii c) 32 then None
      else parse_chars r (N_of_ascii c :: acc)
  end.

(** A string literal: a double quote, then its characters. *)
Definition parse_string (s : string) : option (list N * string) :=
  match strip (String dquote EmptyString) s with
  | Some r => parse_chars r []
  | None => None
  end.

(** Setting a property of an object: an existing key keeps its place. *)
Fixpoint set_member (key : list N) (v : JSON) (members : list (list N * JSON)) : list (list N * JSON) :=
  match members with
  | [] => [(key, v)]
  | (k, w) :: rest =>
      if decide (k = key) then (k, v) :: rest
      else (k, w) :: set_member key v rest
  end.

Inductive Parsed : Type :=
| Ok (v : JSON) (rest : string)
| SyntaxError
| OutOfFuel.

(** A value that is neither an array nor an object. *)
Definition parse_scalar (s : string) : Parsed :=
  match one_of ["null"%string; "true"%string; "false"%string] s with
  | Some (word, r) =>
      Ok (if String.eqb word "null" then JNull else JBool (String.eqb word "true")) r
  | None =>
      match strip (String dquote EmptyString) s with
      | Some _ =>
          match parse_string s with
          | Some (units, r) => Ok (JString units) r
          | None => SyntaxError
          end
      | None =>
          match parse_number s with
          | Some (lexeme, r) => Ok (JNumber lexeme) r
          | None => SyntaxError
          end
      end
  end.

Fixpoint parse_value (fuel : nat) (s : string) : Parsed :=
  match fuel with
  | O => OutOfFuel
  | S fuel =>
      match strip "[" (skip_ws s) with
      | Some r =>
          match strip "]" (skip_ws r) with
          | Some r' => Ok (JArray []) r'
          | None => parse_elements fuel r []
          end
      | None =>
          match strip "{" (skip_ws s) with
          | Some r =>
              match strip "}" (skip_ws r) with
              | Some r' => Ok (JObject []) r'
              | None => parse_members fuel r []
              end
          | None => parse_scalar (skip_ws s)
          end
      end
  end
with parse_elements (fuel : nat) (s : string) (acc : list JSON) : Parsed :=
  match fuel with
  | O => OutOfFuel
  | S fuel =>
      match parse_value fuel s with
      | Ok v r =>
          match strip "," (skip_ws r) with
          | Some r' => parse_elements fuel r' (v :: acc)
          | None =>
              match strip "]" (skip_ws r) with
              | Some r' => Ok (JArray (rev (v :: acc))) r'
              | None => SyntaxError
              end
          end
      | SyntaxError => SyntaxError
      | OutOfFuel => OutOfFuel
      end
  end
with parse_members (fuel : nat) (s : string) (acc : list (list N * JSON)) : Parsed :=
  match fuel with
  | O => OutOfFuel
  | S fuel =>
      match parse_string (skip_ws s) with
      | Some (key, r1) =>
          match strip ":" (skip_ws r1) with
          | Some r2 =>
              match parse_value fuel r2 with
              | Ok v r3 =>
                  match strip "," (skip_ws r3) with
                  | Some r4 => parse_members fuel r4 (set_member key v acc)
                  | None =>
                      match strip "}" (skip_ws r3) with
                      | Some r4 => Ok (JObject (set_member key v acc)) r4
                      | None => SyntaxError
                      end
                  end
              | SyntaxError => SyntaxError
              | OutOfFuel => OutOfFuel
              end
          | None => SyntaxError
          end
      | None => SyntaxError
      end
  end.

(** [JSON.parse(text)]: one value, with nothing but white space around it.
    The text of the message of the [SyntaxError] depends on the engine and
    is not modelled.  The fuel given is never used up ([parse_total]
    below). *)
Definition parse (text : string) : Thrown + JSON :=
  match parse_value (2 * String.length text + 2) text with
  | Ok v rest =>
      if is_empty (skip_ws rest) then inr v
      else inl (ErrorObject "JSON Parse error")
  | SyntaxError => inl (ErrorObject "JSON Parse error")
  | OutOfFuel => inl (OtherValue "out of fuel")
  end.

Definition hex_digit (n : N) : ascii :=
  if N.ltb n 10 then ascii_of_N (48 + n) else ascii_of_N (87 + n).

(** The quoted form of a string, as [JSON.stringify] writes it. *)
Fixpoint quote_chars (s : string) : string :=
  match s with
  | EmptyString => EmptyString
  | String c r =>
      let n := N_of_ascii c in
      (if Ascii.eqb c dquote then String "\" (String dquote EmptyString)
       else if Ascii.eqb c "\" then "\\"
       else if N.eqb n 8 then "\b"
       else if N.eqb n 12 then "\f"
       else if N.eqb n 10 then "\n"
       else if N.eqb n 13 then "\r"
       else if N.eqb n 9 then "\t"
       else if N.ltb n 32
            then "\u00" +:+ String (hex_digit (n / 16)) (String (hex_digit (n mod 16)) EmptyString)
            else String c EmptyString)%string
      +:+ quote_chars r
  end.

Definition quote (s : string) : string :=
  String dquote (quote_chars s +:+ String dquote EmptyString).

Definition stringify_member (m : string * bool) : string :=
  (quote (fst m) +:+ ":" +:+ (if snd m then "true" else "false"))%string.

Fixpoint join_members (ms : list string) : string :=
  match ms with
  | [] => EmptyString
  | [m] => m
  | m :: rest => (m +:+ "," +:+ join_members rest)%string
  end.

(** [JSON.stringify(permissions)] *)
Definition stringify (permissions : Permissions) : string :=
  ("{" +:+ join_members (map stringify_member permissions) +:+ "}")%string.

End JSON_.

(** ** The plugin over time *)

(** The [session.idle] event of session [S]. *)
Definition idle (S : string) : Event.t := Event.mk "session.idle" (Some S).

(** The [session.compacted] event of session [S]. *)
Definition compacted (S : string) : Event.t := Event.mk "session.compacted" (Some S).

(** What runs a handler of the plugin: a call of the [session] tool, an
    event of the backend, or the rejection of the promise of a [summarize]
    call. *)
Inductive Step : Type :=
| Invoke (args : Args.t) (toolCtx : ToolCtx.t)
| Deliver (ev : Event.t)
| Rejected (sessionID : string) (error : Thrown).

(** The stores after one step, against the backend as it behaves during
    that step. *)
Definition step (JSON_parse : string -> Thrown + JSON) (JSON_stringify : Permissions -> string)
    (client : Client) (s : Step) (st : Stores) : Stores :=
  match s with
  | Invoke args toolCtx => stores (execute client JSON_parse JSON_stringify args toolCtx st)
  | Deliver ev => stores (event client JSON_parse ev st)
  | Rejected sessionID error => stores (summarize_catch sessionID error st)
  end.

Fixpoint steps (JSON_parse : string -> Thrown + JSON) (JSON_stringify : Permissions -> string)
    (l : list (Client * Step)) (st : Stores) : Stores :=
  match l with
  | [] => st
  | (client, s) :: l' =>
      steps JSON_parse JSON_stringify l' (step JSON_parse JSON_stringify client s st)
  end.

(** ** Vocabulary of the properties *)

Definition is_toast (c : Call) : bool :=
  match c with
  | ShowToast _ _ => true
  | _ => false
  end.

Definition is_prompt (c : Call) : bool :=
  match c with
  | SessionPrompt _ _ _ | SessionPromptAsync _ _ _ => true
  | _ => false
  end.

(** A computation is orderly when it notifies nobody and when a call of
    its log that threw is what the computation itself threw. *)
Definition orderly {A} (m : M A) : Prop :=
  forall st,
    (forall c o, In (c, o) (calls (m st)) -> is_toast c = false) /\
    (forall c error, In (c, Threw error) (calls (m st)) -> result (m st) = inl error).

(** Every call of the log of a computation satisfies [P]. *)
Definition all_calls {A} (P : Call -> Prop) (m : M A) : Prop :=
  forall st c o, In (c, o) (calls (m st)) -> P c.

(** The agent a prompt is sent with, for a call that is a prompt. *)
Definition prompt_agent (c : Call) : option (option string) :=
  match c with
  | SessionPrompt _ _ body | SessionPromptAsync _ _ body => Some (Body.agent body)
  | _ => None
  end.

(** ** Concrete backends, histories and calls, for the runs below *)

(** A history: a user message, an assistant message of agent [plan], and a
    user message that arrived after it. *)
Definition user_message : Message.t :=
  Message.mk "user" None None None None None.

Definition assistant_message : Message.t :=
  Message.mk "assistant" (Some "plan") (Some "sonnet") (Some "anthropic")
    (Some "be brief") (Some [("read", true)]).

Definition history : list Message.t :=
  [user_message; assistant_message; user_message].

(** A backend on which every call returns. *)
Definition responsive (msgs : list Message.t) : Client :=
  mkClient
    (fun _ _ => inr msgs)
    (fun _ _ => inr "ses_new")
    (fun _ _ _ => inr tt)
    (fun _ _ _ => inr tt)
    (fun _ _ => inr "ses_fork")
    (fun _ _ _ => inr tt)
    (fun _ _ => inr tt).

(** A backend that returns the messages and shows notifications, and
    rejects every prompt. *)
Definition busy (msgs : list Message.t) : Client :=
  mkClient
    (fun _ _ => inr msgs)
    (fun _ _ => inr "ses_new")
    (fun _ _ _ => inl (ErrorObject "session is busy"))
    (fun _ _ _ => inl (ErrorObject "session is busy"))
    (fun _ _ => inr "ses_fork")
    (fun _ _ _ => inr tt)
    (fun _ _ => inr tt).

(** As [busy], and the notification call throws as well. *)
Definition busy_without_toast (msgs : list Message.t) : Client :=
  mkClient
    (fun _ _ => inr msgs)
    (fun _ _ => inr "ses_new")
    (fun _ _ _ => inl (ErrorObject "session is busy"))
    (fun _ _ _ => inl (ErrorObject "session is busy"))
    (fun _ _ => inr "ses_fork")
    (fun _ _ _ => inr tt)
    (fun _ _ => inl (ErrorObject "toast unavailable")).

(** A backend that cannot be reached at all. *)
Definition unreachable : Client :=
  mkClient
    (fun _ _ => inl (ErrorObject "backend unreachable"))
    (fun _ _ => inl (ErrorObject "backend unreachable"))
    (fun _ _ _ => inl (ErrorObject "backend unreachable"))
    (fun _ _ _ => inl (ErrorObject "backend unreachable"))
    (fun _ _ => inl (ErrorObject "backend unreachable"))
    (fun _ _ _ => inl (ErrorObject "backend unreachable"))
    (fun _ _ => inl (ErrorObject "toast unavailable")).

Definition no_stores : Stores := mkStores ∅ ∅ ∅.

Definition here : ToolCtx.t := ToolCtx.mk "ses_1" "/work".

(** [session({ mode, text: "continue", tools })] and variations. *)
Definition call_with (mode : Mode) (agent tools : option string) : Args.t :=
  Args.mk "continue" mode agent None None None None None tools None.

(** The stores after a relay was staged with the tools string [tools]. *)
Definition relay_staged (tools : string) : Stores :=
  stores (execute (responsive history) JSON_.parse JSON_.stringify
            (call_with message None (Some tools)) here no_stores).

(** The stores after a compaction was staged with the tools string [tools]. *)
Definition compaction_staged (tools : string) : Stores :=
  stores (execute (responsive history) JSON_.parse JSON_.stringify
            (call_with compact None (Some tools)) here no_stores).

(** The stores after that compaction was promoted by an [idle] event. *)
Definition compaction_active (tools : string) : Stores :=
  stores (event (responsive history) JSON_.parse (idle "ses_1") (compaction_staged tools)).

(** The session a call is addressed to, for the calls that name one. *)
Definition call_session (c : Call) : option string :=
  match c with
  | SessionMessages id _ | SessionPrompt id _ _ | SessionPromptAsync id _ _
  | SessionSummarize id _ _ _ | SessionFork id _ | SessionUpdate id _ _ => Some id
  | SessionCreate _ _ | ShowToast _ _ | SetTimeout _ => None
  end.

(** The staged compactions all name a provider and a model: a pending
    compaction has a non-empty providerID and modelID, and so has an active
    one, whose phase is ["compacting"]. *)
Definition compactions_have_model (st : Stores) : Prop :=
  (forall S pc,
     pendingCompactions st !! S = Some pc ->
     CompactionRequest.providerID pc <> EmptyString /\
     CompactionRequest.modelID pc <> EmptyString) /\
  (forall S state,
     activeCompactions st !! S = Some state ->
     CompactionState.phase state = "compacting" /\
     truthy (CompactionState.providerID state) = true /\
     truthy (CompactionState.modelID state) = true).

(** No call of the log threw. *)
Definition no_failure (l : list (Call * Outcome)) : Prop :=
  forall c error, ~ In (c, Threw error) l.

(** A computation stops at the first call that throws: either no call of
    its log threw, or the last one did, and the computation threw what that
    call threw. *)
Definition stops_at_failure {A} (m : M A) : Prop :=
  forall st,
    no_failure (calls (m st)) \/
    exists before c error,
      calls (m st) = (before ++ [(c, Threw error)])%list /\
      result (m st) = inl error /\
      no_failure before.

(** ** The reporting tools

    [session_title], [session_list], [session_last_message] and
    [project_list] use no store.  A number is an integer: a time is a count
    of milliseconds, and the [attempt] of a status, when it is a number, a
    count of retries (below ten to the 21, where JavaScript still prints
    all the digits of a number). *)

Module Session.
Record t : Type := mk {
  id : string;
  title : string;
  directory : string;
  updated : Z
}.
End Session.

(** The status of a session: its [type], and its [attempt] when that is a
    number. *)
Module Status.
Record t : Type := mk {
  type : string;
  attempt : option Z
}.
End Status.

Module Project.
Record t : Type := mk {
  id : string;
  worktree : string;
  vcs : option string
}.
End Project.

Module MessagePart.
Record t : Type := mk {
  type : string;
  text : option string
}.
End MessagePart.

(** A message of a session, as [session_last_message] reads it. *)
Module SessionMessage.
Record t : Type := mk {
  id : string;
  role : string;
  created : Z;
  parts : list MessagePart.t
}.
End SessionMessage.

(** The arguments of [session_title]. *)
Module TitleArgs.
Record t : Type := mk {
  title : string;
  sessionID : option string;
  directory : option string
}.
End TitleArgs.

(** The calls of the reporting tools: those of the [session] tool, and the
    three listings. *)
Inductive ReportCall : Type :=
| Core (c : Call)
| SessionList (directory : string)
| SessionStatus (directory : string)
| ProjectList (directory : string).

Definition is_report_toast (c : ReportCall) : bool :=
  match c with
  | Core (ShowToast _ _) => true
  | _ => false
  end.

(** What the reporting tools use of [ctx] beside [Client]: the listings,
    [ctx.project.id], and which of the two calls of [Promise.all] is
    rejected first when both are.  The [data] of [session_status] may be
    missing; when present it is an object, read by its property lookup. *)
Record Reports : Type := mkReports {
  session_list : string -> Thrown + list Session.t;
  session_status : string -> Thrown + option (string -> option Status.t);
  session_messages_parts : string -> string -> Thrown + list SessionMessage.t;
  project_list : string -> Thrown + list Project.t;
  project_id : string;
  status_rejects_first : bool
}.

(** A run of a reporting tool: what it returns or throws, and its calls. *)
Record Report (A : Type) : Type := mkReport {
  answer : Thrown + A;
  log : list (ReportCall * Outcome)
}.
Arguments mkReport {A} _ _.
Arguments answer {A} _.
Arguments log {A} _.

Definition report_ret {A} (a : A) : Report A := mkReport (inr a) [].

Definition report_throw {A} (error : Thrown) : Report A := mkReport (inl error) [].

Definition report_bind {A B} (m : Report A) (k : A -> Report B) : Report B :=
  match m with
  | mkReport (inl error) log1 => mkReport (inl error) log1
  | mkReport (inr a) log1 =>
      match k a with
      | mkReport answer2 log2 => mkReport answer2 (log1 ++ log2)
      end
  end.

Definition report_try {A} (body : Report A) (handler : Thrown -> Report A) : Report A :=
  match body with
  | mkReport (inl error) log1 =>
      match handler error with
      | mkReport answer2 log2 => mkReport answer2 (log1 ++ log2)
      end
  | mkReport (inr a) log1 => mkReport (inr a) log1
  end.

Definition outcome_of {A} (answer : Thrown + A) : Outcome :=
  match answer with
  | inl error => Threw error
  | inr _ => Returned
  end.

Definition report_await {A} (c : ReportCall) (answer : Thrown + A) : Report A :=
  mkReport answer [(c, outcome_of answer)].

(** [await Promise.all([first, second])]: both calls are issued; a rejection
    rejects the whole, the earlier one when both are rejected. *)
Definition report_all {A B} (c1 : ReportCall) (answer1 : Thrown + A)
    (c2 : ReportCall) (answer2 : Thrown + B) (second_rejects_first : bool) : Report (A * B) :=
  mkReport
    match answer1, answer2 with
    | inr a, inr b => inr (a, b)
    | inl error, inr _ | inr _, inl error => inl error
    | inl error1, inl error2 => inl (if second_rejects_first then error2 else error1)
    end
    [(c1, outcome_of answer1); (c2, outcome_of answer2)].

Declare Scope report_scope.
Delimit Scope report_scope with report.
Notation "x <- m ;; k" := (report_bind m (fun x => k))
  (at level 100, m at next level, right associativity) : report_scope.
Notation "m ;; k" := (report_bind m (fun _ => k))
  (at level 100, right associativity) : report_scope.

(** The line feed. *)
Definition newline : string := String "010"%char EmptyString.

(** [strings.join(separator)] *)
Fixpoint join (separator : string) (strings : list string) : string :=
  match strings with
  | [] => EmptyString
  | [s] => s
  | s :: rest => s +:+ separator +:+ join separator rest
  end.

(** [[...items].sort(compare)]: the sort of JavaScript is stable, so for a
    comparison that orders the items the result is the one of insertion
    from the right. *)
Fixpoint sort_insert {A} (compare : A -> A -> Z) (x : A) (sorted : list A) : list A :=
  match sorted with
  | [] => [x]
  | y :: rest =>
      if (compare x y <=? 0)%Z then x :: y :: rest
      else y :: sort_insert compare x rest
  end.

Definition sort {A} (compare : A -> A -> Z) (items : list A) : list A :=
  foldr (sort_insert compare) [] items.

(** [formatSessionStatus] *)
Definition formatSessionStatus (status : option Status.t) : string :=
  match status with
  | None => "unknown"
  | Some status =>
      if String.eqb (Status.type status) "retry"
      then
        let attempt :=
          match Status.attempt status with
          | Some n => " (attempt " +:+ pretty n +:+ ")"
          | None => EmptyString
          end in
        "retry" +:+ attempt
      else Status.type status
  end.

Section Reporting.

Variable client : Client.
Variable reports : Reports.

Local Open Scope report_scope.

Definition showToast (message variant : string) : Report unit :=
  report_await (Core (ShowToast message variant)) (tui_showToast client message variant).

(** [execute] of [session_title] *)
Definition session_title_execute (args : TitleArgs.t) (toolCtx : ToolCtx.t) : Report string :=
  report_try
    (let targetDirectory := js_or_string (TitleArgs.directory args) (ToolCtx.directory toolCtx) in
     let targetSessionID := js_or_string (TitleArgs.sessionID args) (ToolCtx.sessionID toolCtx) in
     report_await
       (Core (SessionUpdate targetSessionID targetDirectory (TitleArgs.title args)))
       (session_update client targetSessionID targetDirectory (TitleArgs.title args)) ;;
     report_ret ("Session title updated (ID: " +:+ targetSessionID +:+ ")"))
    (fun error =>
       let message := error_message error in
       showToast ("Session title update failed: " +:+ message) "error" ;;
       report_ret ("Error: " +:+ message)).

(** [execute] of [session_list] *)
Definition session_list_execute (directory : option string) (toolCtx : ToolCtx.t) : Report string :=
  report_try
    (let targetDirectory := js_or_string directory (ToolCtx.directory toolCtx) in
     both <- report_all
               (SessionList targetDirectory) (session_list reports targetDirectory)
               (SessionStatus targetDirectory) (session_status reports targetDirectory)
               (status_rejects_first reports) ;;
     let sessions := fst both in
     let status := snd both in
     match sessions with
     | [] => report_ret "No sessions found."
     | _ :: _ =>
         let statusMap :=
           match status with
           | Some data => data
           | None => fun _ => None
           end in
         let sortedSessions :=
           sort (fun a b => (Session.updated b - Session.updated a)%Z) sessions in
         let lines :=
           map (fun session =>
                  let sessionStatus := formatSessionStatus (statusMap (Session.id session)) in
                  Session.id session +:+ " " +:+ sessionStatus +:+ " "
                  +:+ Session.title session +:+ " (" +:+ Session.directory session +:+ ")")
               sortedSessions in
         report_ret (join newline lines)
     end)
    (fun error =>
       let message := error_message error in
       showToast ("Session list failed: " +:+ message) "error" ;;
       report_ret ("Error: " +:+ message)).

(** [execute] of [session_last_message]; the last item of the sorted
    messages exists, since there is a message and sorting keeps the items. *)
Definition session_last_message_execute (sessionID directory : option string)
    (toolCtx : ToolCtx.t) : Report string :=
  report_try
    (let targetDirectory := js_or_string directory (ToolCtx.directory toolCtx) in
     let targetSessionID := js_or_string sessionID (ToolCtx.sessionID toolCtx) in
     messages <- report_await
                   (Core (SessionMessages targetSessionID targetDirectory))
                   (session_messages_parts reports targetSessionID targetDirectory) ;;
     match messages with
     | [] => report_ret "No messages found."
     | _ :: _ =>
         let sortedMessages :=
           sort (fun a b => (SessionMessage.created a - SessionMessage.created b)%Z) messages in
         match last sortedMessages with
         | None => report_throw (ErrorObject "undefined is not an object")
         | Some lastMessage =>
             let textParts :=
               map MessagePart.text
                 (filter (fun part => MessagePart.type part = "text")
                    (SessionMessage.parts lastMessage)) in
             let text :=
               match textParts with
               | [] => "(no text content)"
               | _ :: _ => join newline (map (default EmptyString) textParts)
               end in
             report_ret ("Last message (" +:+ SessionMessage.role lastMessage +:+ ") ["
                         +:+ SessionMessage.id lastMessage +:+ "]:" +:+ newline +:+ text)
         end
     end)
    (fun error =>
       let message := error_message error in
       showToast ("Session message lookup failed: " +:+ message) "error" ;;
       report_ret ("Error: " +:+ message)).

(** [execute] of [project_list] *)
Definition project_list_execute (directory : option string) (toolCtx : ToolCtx.t) : Report string :=
  report_try
    (let targetDirectory := js_or_string directory (ToolCtx.directory toolCtx) in
     projects <- report_await (ProjectList targetDirectory)
                   (project_list reports targetDirectory) ;;
     match projects with
     | [] => report_ret "No projects found."
     | _ :: _ =>
         let lines :=
           map (fun project =>
                  let isCurrent := String.eqb (Project.id project) (project_id reports) in
                  let marker := if isCurrent then "*" else " " in
                  let vcs :=
                    if truthy (Project.vcs project)
                    then " (" +:+ template (Project.vcs project) +:+ ")"
                    else EmptyString in
                  marker +:+ " " +:+ Project.worktree project +:+ " ["
                  +:+ Project.id project +:+ "]" +:+ vcs)
               projects in
         report_ret (join newline lines)
     end)
    (fun error =>
       let message := error_message error in
       showToast ("Project list failed: " +:+ message) "error" ;;
       report_ret ("Error: " +:+ message)).

End Reporting.

(** How a reporting tool with the notification prefix [prefix] reports
    failures.  When no call of the run threw, the tool returned a string and
    notified nobody.  When a call other than the notification threw, the
    last call of the log is the notification, carrying after the prefix the
    message of the error of such a call, and the tool returned ["Error: "]
    and that message if the notification returned, and threw what the
    notification threw otherwise. *)
Definition reports_failures (client : Client) (prefix : string) (r : Report string) : Prop :=
  ((forall c error, In (c, Threw error) (log r) -> is_report_toast c = true) ->
   (exists s, answer r = inr s) /\
   (forall c o, In (c, o) (log r) -> is_report_toast c = false)) /\
  (forall c error,
     In (c, Threw error) (log r) -> is_report_toast c = false ->
     exists c' error' o,
       In (c', Threw error') (log r) /\ is_report_toast c' = false /\
       last (log r) =
         Some (Core (ShowToast (prefix +:+ error_message error') "error"), o) /\
       match tui_showToast client (prefix +:+ error_message error') "error" with
       | inr _ => answer r = inr ("Error: " +:+ error_message error')
       | inl error'' => answer r = inl error''
       end).

(** The body of a reporting tool notifies nobody, and throws exactly when
    one of its calls threw, the error of such a call. *)
Definition fails_with_a_call {A} (body : Report A) : Prop :=
  (forall c o, In (c, o) (log body) -> is_report_toast c = false) /\
  match answer body with
  | inr _ => forall c error, ~ In (c, Threw error) (log body)
  | inl error => exists c, In (c, Threw error) (log body)
  end.

(** ** Discovery of the agents

    [discoverAgents] reads the file system; what it finds there is given by
    a [Host] record.  The front matter of a file and the configuration are
    taken at the types the function tests them at. *)

Module AgentInfo.
Record t : Type := mk {
  name : string;
  description : option string
}.
End AgentInfo.

(** The [data] of the front matter of an agent file: its [mode], when that
    is a string, and its [description]. *)
Module Frontmatter.
Record t : Type := mk {
  mode : option string;
  description : option string
}.
End Frontmatter.

(** The configuration of one agent in [opencode.json]: anything that is not
    an object, or an object, with the truthiness of its [disable]. *)
Inductive AgentConfig : Type :=
| NotAnObject
| AgentObject (disable : bool).

(** The file system as [discoverAgents] sees it: the environment variable
    and the home directory, [path.join], the names in a directory (nothing
    when [readdir] throws), the front matter of a file (nothing when reading
    or parsing it throws), and the entries of the [agent] object of a
    configuration file (nothing when the file is missing or unreadable, or
    has no [agent] object). *)
Record Host : Type := mkHost {
  XDG_CONFIG_HOME : option string;
  homedir : string;
  path_join : string -> string -> string;
  readdir : string -> option (list string);
  frontmatter : string -> option Frontmatter.t;
  config_agent : string -> option (list (string * AgentConfig))
}.

(** [s.endsWith(suffix)] *)
Definition endsWith (s suffix : string) : bool :=
  (String.length suffix <=? String.length s)%nat &&
  String.eqb
    (String.substring (String.length s - String.length suffix) (String.length suffix) s)
    suffix.

(** [file.replace(/\.md$/, "")] *)
Definition without_md (file : string) : string :=
  if endsWith file ".md"
  then String.substring 0 (String.length file - 3) file
  else file.

(** [agents.some((a) => a.name === name)] *)
Definition has_agent (name : string) (agents : list AgentInfo.t) : bool :=
  existsb (fun a => String.eqb (AgentInfo.name a) name) agents.

Definition builtin_description (builtIn : string) : string :=
  if String.eqb builtIn "build"
  then "General-purpose implementation agent for building features and fixing bugs"
  else "Strategic planning agent for architecture and design decisions".

Section Discovery.

Variable host : Host.

(** The body of the loop over the files of an agent directory. *)
Definition scan_file (agentDir : string) (agents : list AgentInfo.t) (file : string)
    : list AgentInfo.t :=
  if negb (endsWith file ".md") then agents
  else
    match frontmatter host (path_join host agentDir file) with
    | None => agents
    | Some data =>
        if decide (Frontmatter.mode data = Some "primary" \/ Frontmatter.mode data = Some "all")
        then
          let agentName := without_md file in
          let agentDescription := Frontmatter.description data in
          if has_agent agentName agents then agents
          else agents ++ [AgentInfo.mk agentName agentDescription]
        else agents
    end.

(** The body of the loop over the agent directories. *)
Definition scan_directory (agents : list AgentInfo.t) (agentDir : string) : list AgentInfo.t :=
  match readdir host agentDir with
  | None => agents
  | Some files => foldl (scan_file agentDir) agents files
  end.

(** The body of the loop over the built-in agents. *)
Definition add_builtin (agents : list AgentInfo.t) (builtIn : string) : list AgentInfo.t :=
  if has_agent builtIn agents then agents
  else AgentInfo.mk builtIn (Some (builtin_description builtIn)) :: agents.

(** The body of the loop over the entries of the [agent] object. *)
Definition scan_entry (disabledAgents : gset string) (entry : string * AgentConfig)
    : gset string :=
  match snd entry with
  | AgentObject true => {[fst entry]} ∪ disabledAgents
  | AgentObject false | NotAnObject => disabledAgents
  end.

(** The body of the loop over the configuration files. *)
Definition scan_config (disabledAgents : gset string) (configPath : string) : gset string :=
  match config_agent host configPath with
  | None => disabledAgents
  | Some entries => foldl scan_entry disabledAgents entries
  end.

(** [discoverAgents(projectDir)] *)
Definition discoverAgents (projectDir : string) : list AgentInfo.t :=
  let xdgBase :=
    if truthy (XDG_CONFIG_HOME host)
    then path_join host (template (XDG_CONFIG_HOME host)) "opencode"
    else path_join host (homedir host) ".config/opencode" in
  let agentDirs :=
    [path_join host xdgBase "agent"; path_join host projectDir ".opencode/agent"] in
  let configPaths :=
    [path_join host xdgBase "opencode.json";
     path_join host projectDir ".opencode/opencode.json"] in
  let agents := foldl scan_directory [] agentDirs in
  let agents := foldl add_builtin agents ["build"; "plan"] in
  let disabledAgents := foldl scan_config ∅ configPaths in
  filter (fun agent => AgentInfo.name agent ∉ disabledAgents) agents.

End Discovery.

(** The agent a file of an agent directory defines, if it defines one: the
    file is a markdown file whose front matter can be read and has the mode
    [primary] or [all]. *)
Definition defined_by (host : Host) (agentDir file : string) : option AgentInfo.t :=
  if endsWith file ".md"
  then
    match frontmatter host (path_join host agentDir file) with
    | Some data =>
        if decide (Frontmatter.mode data = Some "primary" \/ Frontmatter.mode data = Some "all")
        then Some (AgentInfo.mk (without_md file) (Frontmatter.description data))
        else None
    | None => None
    end
  else None.

(** The agents the files of the agent directories define, in the order the
    directories and their files are read. *)
Definition definitions (host : Host) (agentDirs : list string) : list AgentInfo.t :=
  agentDirs ≫= fun agentDir =>
    match readdir host agentDir with
    | Some files => omap (defined_by host agentDir) files
    | None => []
    end.

(** The two agent directories and the two configuration files. *)
Definition xdg_base (host : Host) : string :=
  if truthy (XDG_CONFIG_HOME host)
  then path_join host (template (XDG_CONFIG_HOME host)) "opencode"
  else path_join host (homedir host) ".config/opencode".

Definition agent_directories (host : Host) (projectDir : string) : list string :=
  [path_join host (xdg_base host) "agent"; path_join host projectDir ".opencode/agent"].

Definition configuration_files (host : Host) (projectDir : string) : list string :=
  [path_join host (xdg_base host) "opencode.json";
   path_join host projectDir ".opencode/opencode.json"].

(** A configuration file disables the agent [name]. *)
Definition disabled (host : Host) (projectDir name : string) : Prop :=
  exists configPath entries,
    configPath ∈ configuration_files host projectDir /\
    config_agent host configPath = Some entries /\
    (name, AgentObject true) ∈ entries.

(** Adding an agent unless one of its name is there. *)
Definition push_new (agents : list AgentInfo.t) (a : AgentInfo.t) : list AgentInfo.t :=
  if has_agent (AgentInfo.name a) agents then agents else agents ++ [a].

(** ** Concrete stores, listings and hosts, for the runs below *)

(** The stores after a relay and then a compaction were staged. *)
Definition both_staged : Stores :=
  stores (execute (responsive history) JSON_.parse JSON_.stringify
            (call_with compact None (Some "{}")) here (relay_staged "{}")).

Definition sessions_sample : list Session.t :=
  [Session.mk "ses_1" "Parser" "/work" 100;
   Session.mk "ses_2" "Review" "/work" 300;
   Session.mk "ses_3" "Docs" "/elsewhere" 200].

Definition statuses_sample (id : string) : option Status.t :=
  if String.eqb id "ses_2" then Some (Status.mk "retry" (Some 2%Z))
  else if String.eqb id "ses_1" then Some (Status.mk "idle" None)
  else None.

(** The messages of a session, the latest one arriving first. *)
Definition messages_sample : list SessionMessage.t :=
  [SessionMessage.mk "msg_2" "assistant" 20
     [MessagePart.mk "text" (Some "Done."); MessagePart.mk "tool" None;
      MessagePart.mk "text" (Some "Tests pass.")];
   SessionMessage.mk "msg_1" "user" 10 [MessagePart.mk "text" (Some "Go on.")]].

Definition projects_sample : list Project.t :=
  [Project.mk "prj_1" "/work" (Some "git"); Project.mk "prj_2" "/elsewhere" None].

Definition listings : Reports :=
  mkReports
    (fun _ => inr sessions_sample)
    (fun _ => inr (Some statuses_sample))
    (fun _ _ => inr messages_sample)
    (fun _ => inr projects_sample)
    "prj_1"
    false.

(** A backend with no session, no message and no project. *)
Definition nothing_listed : Reports :=
  mkReports
    (fun _ => inr [])
    (fun _ => inr None)
    (fun _ _ => inr [])
    (fun _ => inr [])
    "prj_1"
    false.

(** A backend whose listings are all rejected, the status first. *)
Definition listings_rejected : Reports :=
  mkReports
    (fun _ => inl (ErrorObject "no sessions"))
    (fun _ => inl (OtherValue "no status"))
    (fun _ _ => inl (ErrorObject "no messages"))
    (fun _ => inl (ErrorObject "no projects"))
    "prj_1"
    true.

Definition retitle : TitleArgs.t := TitleArgs.mk "Parser work" (Some "ses_7") None.

(** A host without [XDG_CONFIG_HOME].  The configuration directory defines
    [review] and holds a file that is no markdown file and a markdown file
    of a subagent; the project defines [review] again, and [build]; the
    configuration of the project disables [plan]. *)
Definition host_sample : Host :=
  mkHost
    None
    "/home/dev"
    (fun a b => a +:+ "/" +:+ b)
    (fun agentDir =>
       if String.eqb agentDir "/home/dev/.config/opencode/agent"
       then Some ["review.md"; "notes.txt"; "helper.md"]
       else if String.eqb agentDir "/work/.opencode/agent"
       then Some ["review.md"; "build.md"; "broken.md"]
       else None)
    (fun filePath =>
       if String.eqb filePath "/home/dev/.config/opencode/agent/review.md"
       then Some (Frontmatter.mk (Some "primary") (Some "Reviews changes"))
       else if String.eqb filePath "/home/dev/.config/opencode/agent/helper.md"
       then Some (Frontmatter.mk (Some "subagent") (Some "Helps"))
       else if String.eqb filePath "/work/.opencode/agent/review.md"
       then Some (Frontmatter.mk (Some "all") (Some "Reviews this project"))
       else if String.eqb filePath "/work/.opencode/agent/build.md"
       then Some (Frontmatter.mk (Some "primary") None)
       else None)
    (fun configPath =>
       if String.eqb configPath "/work/.opencode/opencode.json"
       then Some [("plan", AgentObject true); ("review", AgentObject false);
                  ("build", NotAnObject)]
       else None).

(** * Properties *)

(** ** The parser always decides

    [JSON_.parse] is given two units of fuel per character of the text and
    one more; that is enough for it to return a value or to reject the
    text. *)
Module JSON_facts.
Import JSON_.

Lemma length_skip_ws (s : string) : String.length (skip_ws s) <= String.length s.
Proof.
  induction s as [|c s IH]; cbn; [done|].
  destruct (is_ws c); cbn; lia.
Qed.

Lemma length_strip (p s r : string) :
  strip p s = Some r -> String.length r + String.length p = String.length s.
Proof.
  revert s. induction p as [|a p IH]; intros [|b s]; cbn; try done.
  - intros; simplify_eq; cbn; lia.
  - intros; simplify_eq; cbn; lia.
  - destruct (Ascii.eqb a b); [|done]. intros Hr%IH. lia.
Qed.

Lemma length_one_of (ps : list string) (s p r : string) :
  one_of ps s = Some (p, r) -> String.length r <= String.length s.
Proof.
  induction ps as [|p' ps IH]; cbn; [done|].
  destruct (strip p' s) as [r'|] eqn:Hstrip; [|done].
  intros [= <- <-]. apply length_strip in Hstrip. lia.
Qed.

Lemma length_optional (ps : list string) (s p r : string) :
  optional ps s = (p, r) -> String.length r <= String.length s.
Proof.
  unfold optional. destruct (one_of ps s) as [[p' r']|] eqn:Hone.
  - intros [= <- <-]. by eapply length_one_of.
  - by intros [= <- <-].
Qed.

Lemma length_digits (s ds r : string) :
  digits s = (ds, r) -> String.length r <= String.length s.
Proof.
  revert ds r. induction s as [|c s IH]; intros ds r; cbn.
  - by intros [= <- <-].
  - destruct (is_digit c).
    + destruct (digits s) as [ds' r'] eqn:Hds. intros [= <- <-].
      specialize (IH ds' r' eq_refl). lia.
    + by intros [= <- <-].
Qed.

Lemma length_digits1 (s ds r : string) :
  digits1 s = Some (ds, r) -> String.length r <= String.length s.
Proof.
  unfold digits1. destruct (digits s) as [ds' r'] eqn:Hds.
  destruct (is_empty ds'); [done|]. intros [= <- <-]. by eapply length_digits.
Qed.

Lemma length_parse_number (s lexeme r : string) :
  parse_number s = Some (lexeme, r) -> String.length r <= String.length s.
Proof.
  unfold parse_number. intros Hparse.
  repeat (case_match; simplify_eq);
    repeat match goal with
           | H : optional _ _ = _ |- _ => apply length_optional in H
           | H : one_of _ _ = Some _ |- _ => apply length_one_of in H
           | H : digits1 _ = Some _ |- _ => apply length_digits1 in H
           end; lia.
Qed.

Lemma length_parse_chars (s : string) (acc units : list N) (r : string) :
  parse_chars s acc = Some (units, r) -> String.length r <= String.length s.
Proof.
  remember (String.length s) as n eqn:Hn.
  assert (String.length s <= n) as Hle by lia. clear Hn.
  revert s acc Hle. induction n as [|n IH]; intros [|c s] acc Hle; cbn in *; try done; try lia.
  repeat (case_match; simplify_eq; cbn in *; try done);
    intros Hparse;
    first [ by (simplify_eq; cbn; lia)
          | apply IH in Hparse; cbn in *; lia ].
Qed.

Lemma length_parse_string (s : string) (units : list N) (r : string) :
  parse_string s = Some (units, r) -> String.length r <= String.length s.
Proof.
  unfold parse_string. destruct (strip _ s) as [r'|] eqn:Hstrip; [|done].
  intros Hchars%length_parse_chars. apply length_strip in Hstrip. lia.
Qed.

Lemma length_parse_scalar (s : string) (v : JSON) (r : string) :
  parse_scalar s = Ok v r -> String.length r <= String.length s.
Proof.
  unfold parse_scalar. intros Hparse.
  repeat (case_match; simplify_eq);
    repeat match goal with
           | H : one_of _ _ = Some _ |- _ => apply length_one_of in H
           | H : parse_string _ = Some _ |- _ => apply length_parse_string in H
           | H : parse_number _ = Some _ |- _ => apply length_parse_number in H
           end; lia.
Qed.

Lemma parse_scalar_fuel (s : string) : parse_scalar s <> OutOfFuel.
Proof. unfold parse_scalar. by repeat case_match. Qed.

Ltac lengths :=
  repeat match goal with
         | H : strip _ _ = Some _ |- _ => apply length_strip in H; cbn [String.length] in H
         | H : parse_string _ = Some _ |- _ => apply length_parse_string in H
         | H : parse_scalar _ = Ok _ _ |- _ => apply length_parse_scalar in H
         | |- context [skip_ws ?x] => pose proof (length_skip_ws x); generalize dependent (skip_ws x); intros
         | H : context [skip_ws ?x] |- _ => pose proof (length_skip_ws x); generalize dependent (skip_ws x); intros
         end.

Lemma length_parsed (fuel : nat) :
  (forall s v r, parse_value fuel s = Ok v r -> String.length r <= String.length s) /\
  (forall s acc v r, parse_elements fuel s acc = Ok v r -> String.length r <= String.length s) /\
  (forall s acc v r, parse_members fuel s acc = Ok v r -> String.length r <= String.length s).
Proof.
  induction fuel as [|fuel (IHv & IHe & IHm)]; [by repeat split|].
  repeat split.
  - intros s v r. cbn [parse_value]. intros Hparse.
    repeat (case_match; simplify_eq);
      repeat match goal with
             | H : parse_elements _ _ _ = Ok _ _ |- _ => apply IHe in H
             | H : parse_members _ _ _ = Ok _ _ |- _ => apply IHm in H
             end; lengths; lia.
  - intros s acc v r. cbn [parse_elements]. intros Hparse.
    repeat (case_match; simplify_eq);
      repeat match goal with
             | H : parse_value _ _ = Ok _ _ |- _ => apply IHv in H
             | H : parse_elements _ _ _ = Ok _ _ |- _ => apply IHe in H
             end; lengths; lia.
  - intros s acc v r. cbn [parse_members]. intros Hparse.
    repeat (case_match; simplify_eq);
      repeat match goal with
             | H : parse_value _ _ = Ok _ _ |- _ => apply IHv in H
             | H : parse_members _ _ _ = Ok _ _ |- _ => apply IHm in H
             end; lengths; lia.
Qed.

Lemma enough_fuel (fuel : nat) :
  (forall s, 2 * String.length s + 1 <= fuel -> parse_value fuel s <> OutOfFuel) /\
  (forall s acc, 2 * String.length s + 2 <= fuel -> parse_elements fuel s acc <> OutOfFuel) /\
  (forall s acc, 2 * String.length s + 2 <= fuel -> parse_members fuel s acc <> OutOfFuel).
Proof.
  induction fuel as [|fuel (IHv & IHe & IHm)]; [repeat split; intros; lia|].
  repeat split.
  - intros s Hfuel. cbn [parse_value].
    repeat (case_match; simplify_eq); try done;
      first [apply parse_scalar_fuel | apply IHe | apply IHm]; lengths; lia.
  - intros s acc Hfuel. cbn [parse_elements].
    destruct (parse_value fuel s) as [v r| |] eqn:Hvalue; [|done|].
    + apply (proj1 (length_parsed fuel)) in Hvalue.
      repeat (case_match; simplify_eq); try done.
      apply IHe. lengths. lia.
    + by apply IHv in Hvalue; [|lia].
  - intros s acc Hfuel. cbn [parse_members].
    destruct (parse_string (skip_ws s)) as [[key r1]|] eqn:Hkey; [|done].
    destruct (strip ":" (skip_ws r1)) as [r2|] eqn:Hcolon; [|done].
    destruct (parse_value fuel r2) as [v r3| |] eqn:Hvalue; [|done|].
    + apply (proj1 (length_parsed fuel)) in Hvalue.
      repeat (case_match; simplify_eq); try done.
      apply IHm. lengths. lia.
    + apply IHv in Hvalue; [done|]. lengths. lia.
Qed.

(** [parse] never runs out of fuel: it returns a value or throws the
    [SyntaxError]. *)
Lemma parse_total (text : string) :
  (exists v, parse text = inr v) \/ parse text = inl (ErrorObject "JSON Parse error").
Proof.
  unfold parse.
  destruct (parse_value _ text) as [v r| |] eqn:Hvalue.
  - destruct (is_empty (skip_ws r)); eauto.
  - by right.
  - by apply (proj1 (enough_fuel _)) in Hvalue; [|lia].
Qed.

End JSON_facts.

(** ** Running a handler *)

Ltac run :=
  cbv beta iota zeta delta
    [event event_idle event_compacted execute execute_body first_prompt
     prompt promptAsync parse_tools summarize_catch set_pendingMessages
     set_pendingCompactions set_activeCompactions
     bind try_catch await detach lift get put ret throw];
  cbn [result stores calls pendingMessages pendingCompactions activeCompactions
       app negb orb andb Event.sessionID Event.type String.eqb Ascii.eqb Bool.eqb].

Ltac settle :=
  repeat match goal with u : unit |- _ => destruct u end;
  repeat split; intros; simplify_eq; cbn [map fst]; try done; try congruence.

Section Reactor.

Variable client : Client.
Variable JSON_parse : string -> Thrown + JSON.

(** C2. On [idle] for [S], with no pending relay and a pending compaction
    for [S]: the pending compaction is removed, an active compaction with
    the same payload and the phase marker is stored for [S], and the only
    call issued is one [summarize] for [S] with the staged directory,
    providerID and modelID.  The pending relays are unchanged. *)
Theorem idle_promotes_pending_compaction (S : string) (st : Stores) (pc : CompactionRequest.t) :
  pendingMessages st !! S = None ->
  pendingCompactions st !! S = Some pc ->
  let r := event client JSON_parse (idle S) st in
  result r = inr tt /\
  pendingMessages (stores r) = pendingMessages st /\
  pendingCompactions (stores r) = delete S (pendingCompactions st) /\
  activeCompactions (stores r) =
    <[S := CompactionState.mk "compacting"
             (CompactionRequest.agent pc)
             (Some (CompactionRequest.modelID pc))
             (Some (CompactionRequest.providerID pc))
             (CompactionRequest.system pc)
             (CompactionRequest.tools pc)
             (CompactionRequest.text pc)
             (CompactionRequest.directory pc)]> (activeCompactions st) /\
  calls r = [(SessionSummarize S (CompactionRequest.directory pc)
                (CompactionRequest.providerID pc) (CompactionRequest.modelID pc),
              NotAwaited)].
Proof.
  intros Hrelay Hcompaction r. subst r. unfold idle.
  run. rewrite Hrelay. run. rewrite Hcompaction. run. done.
Qed.

(** C1 (amended). On [idle] for [S], with a pending relay [pm] for [S]: the
    relay is removed and the pending and active compactions are unchanged.
    When the staged tools string is absent or empty, or parses as JSON,
    exactly one prompt is issued, into [S] and the staged directory, with
    the staged agent, the model pair (present when both the staged modelID
    and providerID are non-empty), the staged system, the parsed tools and
    the staged text.  When the staged tools string is non-empty and does not
    parse, no call is issued at all. *)
Theorem idle_sends_pending_relay (S : string) (st : Stores) (pm : PendingMessage.t) :
  pendingMessages st !! S = Some pm ->
  let r := event client JSON_parse (idle S) st in
  let body tools :=
    Body.mk None (PendingMessage.agent pm)
      (if truthy (PendingMessage.modelID pm) && truthy (PendingMessage.providerID pm)
       then Some (Model.mk (PendingMessage.modelID pm) (PendingMessage.providerID pm))
       else None)
      (PendingMessage.system pm) tools [TextPart (PendingMessage.text pm)] in
  result r = inr tt /\
  pendingMessages (stores r) = delete S (pendingMessages st) /\
  pendingCompactions (stores r) = pendingCompactions st /\
  activeCompactions (stores r) = activeCompactions st /\
  (truthy (PendingMessage.tools pm) = false ->
   map fst (calls r) = [SessionPrompt S (PendingMessage.directory pm) (body None)]) /\
  (forall s v,
     PendingMessage.tools pm = Some s -> s <> EmptyString -> JSON_parse s = inr v ->
     map fst (calls r) = [SessionPrompt S (PendingMessage.directory pm) (body (Some v))]) /\
  (forall s error,
     PendingMessage.tools pm = Some s -> s <> EmptyString -> JSON_parse s = inl error ->
     calls r = []).
Proof.
  intros Hrelay r body. subst r body. unfold idle.
  run. rewrite Hrelay. run. unfold model_if_both.
  destruct (PendingMessage.tools pm) as [s|] eqn:Htools; cbn [truthy template].
  - destruct (String.eqb_spec s EmptyString) as [->|Hs]; cbn [negb].
    + destruct (session_prompt client S _ _); cbn; settle.
    + destruct (JSON_parse s) as [error|v] eqn:Hparse;
        [|destruct (session_prompt client S _ _)]; cbn; settle.
  - destruct (session_prompt client S _ _); cbn; settle.
Qed.

(** C3 (amended). On [compacted] for [S]: the pending relays and pending
    compactions are unchanged.  Without an active compaction for [S] nothing
    changes and no call is issued.  With an active compaction [state] for
    [S], it is removed and the 100 ms timer is awaited; after it, when the
    staged tools string is absent or empty, or parses as JSON, exactly one
    prompt is issued into [S] with the staged agent, model pair, system,
    parsed tools and text; when the staged tools string is non-empty and
    does not parse, no prompt is issued. *)
Theorem compacted_sends_continuation (S : string) (st : Stores) :
  let r := event client JSON_parse (compacted S) st in
  result r = inr tt /\
  pendingMessages (stores r) = pendingMessages st /\
  pendingCompactions (stores r) = pendingCompactions st /\
  match activeCompactions st !! S with
  | None => activeCompactions (stores r) = activeCompactions st /\ calls r = []
  | Some state =>
      let body tools :=
        Body.mk None (CompactionState.agent state)
          (if truthy (CompactionState.modelID state) && truthy (CompactionState.providerID state)
           then Some (Model.mk (CompactionState.modelID state) (CompactionState.providerID state))
           else None)
          (CompactionState.system state) tools [TextPart (CompactionState.text state)] in
      activeCompactions (stores r) = delete S (activeCompactions st) /\
      exists sent,
        calls r = (SetTimeout 100, Returned) :: sent /\
        (truthy (CompactionState.tools state) = false ->
         map fst sent = [SessionPrompt S (CompactionState.directory state) (body None)]) /\
        (forall s v,
           CompactionState.tools state = Some s -> s <> EmptyString -> JSON_parse s = inr v ->
           map fst sent = [SessionPrompt S (CompactionState.directory state) (body (Some v))]) /\
        (forall s error,
           CompactionState.tools state = Some s -> s <> EmptyString -> JSON_parse s = inl error ->
           sent = [])
  end.
Proof.
  intros r. subst r. unfold compacted.
  run. destruct (activeCompactions st !! S) as [state|] eqn:Hactive; run; [|done].
  unfold model_if_both.
  destruct (CompactionState.tools state) as [s|] eqn:Htools; cbn [truthy template].
  - destruct (String.eqb_spec s EmptyString) as [->|Hs]; cbn [negb].
    + destruct (session_prompt client S _ _); cbn; settle; eexists; settle.
    + destruct (JSON_parse s) as [error|v] eqn:Hparse;
        [|destruct (session_prompt client S _ _)]; cbn; settle; eexists; settle.
  - destruct (session_prompt client S _ _); cbn; settle; eexists; settle.
Qed.

(** C6. When the promise of the [summarize] call of session [S] is rejected,
    the active compaction of [S] is deleted; the other two stores are
    unchanged and no call is issued (no retry, no notification). *)
Theorem summarize_rejection_drops_active (S : string) (error : Thrown) (st : Stores) :
  let r := summarize_catch S error st in
  result r = inr tt /\
  activeCompactions (stores r) = delete S (activeCompactions st) /\
  pendingMessages (stores r) = pendingMessages st /\
  pendingCompactions (stores r) = pendingCompactions st /\
  calls r = [].
Proof. intros r. subst r. run. done. Qed.

(** Promotion followed by the rejection of its [summarize] call: the
    pending compaction is gone and no active compaction is left for [S]. *)
Lemma promotion_then_rejection (S : string) (error : Thrown) (st : Stores)
    (pc : CompactionRequest.t) :
  pendingMessages st !! S = None ->
  pendingCompactions st !! S = Some pc ->
  let promoted := stores (event client JSON_parse (idle S) st) in
  let final := stores (summarize_catch S error promoted) in
  is_Some (activeCompactions promoted !! S) /\
  pendingMessages final = pendingMessages st /\
  pendingCompactions final = delete S (pendingCompactions st) /\
  activeCompactions final = delete S (activeCompactions st).
Proof.
  intros Hrelay Hcompaction promoted final. subst final promoted. unfold idle.
  run. rewrite Hrelay. run. rewrite Hcompaction. run.
  repeat split; [|apply delete_insert_eq]. by rewrite lookup_insert_eq.
Qed.

End Reactor.

(** ** The workflow engine *)

Lemma truthy_js_or (a b : option string) :
  truthy (a ||| b) = truthy a || truthy b.
Proof. unfold js_or. destruct (truthy a) eqn:Ha; [rewrite Ha|]; done. Qed.

Lemma js_or_truthy (a b : option string) (s : string) :
  a = Some s -> s <> EmptyString -> a ||| b = Some s.
Proof.
  intros -> Hs. unfold js_or, truthy.
  destruct (String.eqb_spec s EmptyString); done.
Qed.

Lemma js_or_falsy (a b : option string) :
  truthy a = false -> a ||| b = b.
Proof. intros Ha. unfold js_or. by rewrite Ha. Qed.

Lemma truthy_template (a : option string) :
  truthy a = true -> a = Some (template a).
Proof. destruct a; done. Qed.

Lemma js_or_string_falsy (a : option string) (d : string) :
  truthy a = false -> js_or_string a d = d.
Proof.
  destruct a as [s|]; cbn; [|done].
  destruct (String.eqb s EmptyString); done.
Qed.

Lemma js_or_string_truthy (a : option string) (d : string) :
  truthy a = true -> js_or_string a d = template a.
Proof.
  destruct a as [s|]; cbn; [|done].
  destruct (String.eqb s EmptyString); done.
Qed.

Lemma falsy_cases (a : option string) :
  truthy a = false <-> a = None \/ a = Some EmptyString.
Proof.
  destruct a as [s|]; cbn.
  - destruct (String.eqb_spec s EmptyString) as [->|Hs]; cbn; split; try done; eauto.
    intros [|[= ->]]; done.
  - split; eauto.
Qed.

(** [lastAssistant] is the assistant message after which no assistant
    message arrived. *)
Lemma lastAssistant_cases (msgs : list Message.t) :
  (lastAssistant msgs = None /\
   Forall (fun m => Message.role m <> "assistant") msgs) \/
  (exists before m after,
     lastAssistant msgs = Some m /\
     msgs = (before ++ m :: after)%list /\
     Message.role m = "assistant" /\
     Forall (fun m' => Message.role m' <> "assistant") after).
Proof.
  unfold lastAssistant.
  induction msgs as [|x msgs IH] using rev_ind.
  - left. by split.
  - rewrite filter_app.
    destruct (decide (Message.role x = "assistant")) as [Hx|Hx].
    + right. exists msgs, x, []. rewrite filter_cons_True, filter_nil by done.
      rewrite last_snoc. by repeat split.
    + rewrite filter_cons_False, filter_nil, app_nil_r by done.
      destruct IH as [[Hnone Hall]|(before & m & after & Hlast & -> & Hm & Hafter)].
      * left. split; [done|]. apply Forall_app. by split; [|apply Forall_singleton].
      * right. exists before, m, (after ++ [x])%list.
        repeat split; [done|by rewrite <- app_assoc|done|].
        apply Forall_app. by split; [|apply Forall_singleton].
Qed.

(** *** Properties of every call of a log *)

Lemma all_calls_silent {A} (P : Call -> Prop) (m : M A) :
  (forall st, calls (m st) = []) -> all_calls P m.
Proof. intros Hm st c o. rewrite Hm. intros []. Qed.

Lemma all_calls_await {A} (P : Call -> Prop) (c : Call) (answer : Thrown + A) :
  P c -> all_calls P (await c answer).
Proof.
  intros Hc st c' o. unfold await.
  destruct answer; cbn; intros [Heq|[]]; by simplify_eq.
Qed.

Lemma all_calls_bind {A B} (P : Call -> Prop) (m : M A) (k : A -> M B) :
  all_calls P m -> (forall a, all_calls P (k a)) -> all_calls P (bind m k).
Proof.
  intros Hm Hk st c o. unfold bind.
  specialize (Hm st).
  destruct (m st) as [[error|a] st1 calls1]; cbn in *; [apply Hm|].
  specialize (Hk a st1).
  destruct (k a st1) as [result2 st2 calls2]; cbn in *.
  intros [Hin|Hin]%in_app_or; eauto.
Qed.

Lemma all_calls_bind_await {A B} (P : Call -> Prop) (c : Call) (answer : Thrown + A)
    (k : A -> M B) :
  P c -> (forall a, answer = inr a -> all_calls P (k a)) ->
  all_calls P (bind (await c answer) k).
Proof.
  intros Hc Hk st c' o. unfold bind, await.
  destruct answer as [error|a]; cbn.
  - intros [Heq|[]]. by simplify_eq.
  - specialize (Hk a eq_refl st).
    destruct (k a st) as [result2 st2 calls2]; cbn in *.
    intros [Heq|Hin]; [by simplify_eq|eauto].
Qed.

Lemma all_calls_bind_when {A B} (P : Call -> Prop) (Q : A -> Prop) (m : M A)
    (k : A -> M B) :
  all_calls P m -> (forall st a, result (m st) = inr a -> Q a) ->
  (forall a, Q a -> all_calls P (k a)) ->
  all_calls P (bind m k).
Proof.
  intros Hm HQ Hk st c o. unfold bind.
  specialize (Hm st). specialize (HQ st).
  destruct (m st) as [[error|a] st1 calls1]; cbn in *; [apply Hm|].
  specialize (Hk a (HQ a eq_refl) st1).
  destruct (k a st1) as [result2 st2 calls2]; cbn in *.
  intros [Hin|Hin]%in_app_or; eauto.
Qed.

Lemma all_calls_try_catch {A} (P : Call -> Prop) (m : M A) (handler : Thrown -> M A) :
  all_calls P m -> (forall error, all_calls P (handler error)) ->
  all_calls P (try_catch m handler).
Proof.
  intros Hm Hh st c o. unfold try_catch.
  specialize (Hm st).
  destruct (m st) as [[error|a] st1 calls1]; cbn in *; [|apply Hm].
  specialize (Hh error st1).
  destruct (handler error st1) as [result2 st2 calls2]; cbn in *.
  intros [Hin|Hin]%in_app_or; eauto.
Qed.

(** *** One entry per key *)

Lemma filter_none {A} (P : A -> Prop) `{forall x, Decision (P x)} (l : list A) :
  (forall x, x ∈ l -> ~ P x) -> filter P l = [].
Proof.
  induction l as [|x l IH]; intros Hl; [done|].
  rewrite filter_cons_False by (apply Hl; left).
  apply IH. intros y Hy. apply Hl. by right.
Qed.

Lemma one_entry {V} (m : gmap string V) (k : string) (v : V) :
  m !! k = Some v ->
  length (filter (fun entry => entry.1 = k) (map_to_list m)) = 1.
Proof.
  intros Hk.
  rewrite <- (insert_id m k v Hk), <- insert_delete_eq.
  rewrite map_to_list_insert by apply lookup_delete_eq.
  rewrite filter_cons_True by done.
  rewrite filter_none; [done|].
  intros [k' v'] Hin%elem_of_map_to_list Heq. cbn in Heq. subst k'.
  by rewrite lookup_delete_eq in Hin.
Qed.

Lemma steps_app JSON_parse JSON_stringify (l1 l2 : list (Client * Step)) (st : Stores) :
  steps JSON_parse JSON_stringify (l1 ++ l2) st =
  steps JSON_parse JSON_stringify l2 (steps JSON_parse JSON_stringify l1 st).
Proof.
  revert st. induction l1 as [|[client s] l1 IH]; intros st; [done|].
  cbn. apply IH.
Qed.

(** *** Orderly computations *)

Lemma orderly_ret {A} (a : A) : orderly (ret a).
Proof. intros st. split; intros ? ? []. Qed.

Lemma orderly_throw {A} (error : Thrown) : orderly (@throw A error).
Proof. intros st. split; intros ? ? []. Qed.

Lemma orderly_lift {A} (v : Thrown + A) : orderly (lift v).
Proof. intros st. split; intros ? ? []. Qed.

Lemma orderly_set_pendingMessages f : orderly (set_pendingMessages f).
Proof. intros st. split; intros ? ? []. Qed.

Lemma orderly_set_pendingCompactions f : orderly (set_pendingCompactions f).
Proof. intros st. split; intros ? ? []. Qed.

Lemma orderly_await {A} (c : Call) (answer : Thrown + A) :
  is_toast c = false -> orderly (await c answer).
Proof.
  intros Hc st. unfold await.
  destruct answer; cbn; split; intros ? ? [Heq|[]]; simplify_eq; done.
Qed.

Lemma orderly_bind {A B} (m : M A) (k : A -> M B) :
  orderly m -> (forall a, orderly (k a)) -> orderly (bind m k).
Proof.
  intros Hm Hk st. unfold bind.
  destruct (Hm st) as [Hm1 Hm2].
  destruct (m st) as [[error|a] st1 calls1]; cbn in *.
  { split; [assumption|]. intros c e Hin. apply Hm2 in Hin. congruence. }
  destruct (Hk a st1) as [Hk1 Hk2].
  destruct (k a st1) as [result2 st2 calls2]; cbn in *.
  split; intros c o [Hin|Hin]%in_app_or; eauto.
  by apply Hm2 in Hin.
Qed.

Lemma orderly_rethrow {A} (m : M A) :
  orderly m -> orderly (try_catch m (fun error => throw error)).
Proof.
  intros Hm st. unfold try_catch, throw.
  destruct (Hm st) as [Hm1 Hm2].
  destruct (m st) as [[error|a] st1 calls1]; cbn in *; [|split; assumption].
  rewrite app_nil_r. split; assumption.
Qed.

Section Workflow.

Variable client : Client.
Variable JSON_parse : string -> Thrown + JSON.
Variable JSON_stringify : Permissions -> string.

(** C4. In mode [compact], when the messages of the session were fetched
    and the provider or the model is neither given by a non-empty argument
    nor inherited, [execute] returns the fixed error string, the fetch is
    the only call issued (no marker prompt, no summarize, no notification)
    and the three stores are unchanged. *)
Theorem compact_without_model (args : Args.t) (toolCtx : ToolCtx.t) (st : Stores)
    (msgs : list Message.t) :
  Args.mode args = compact ->
  session_messages client (ToolCtx.sessionID toolCtx) (ToolCtx.directory toolCtx) = inr msgs ->
  (truthy (Args.providerID args) = false /\ truthy (inherited Message.providerID msgs) = false) \/
  (truthy (Args.modelID args) = false /\ truthy (inherited Message.modelID msgs) = false) ->
  let r := execute client JSON_parse JSON_stringify args toolCtx st in
  result r = inr "Error: No assistant messages found in session. Cannot determine model for compaction." /\
  stores r = st /\
  calls r = [(SessionMessages (ToolCtx.sessionID toolCtx) (ToolCtx.directory toolCtx), Returned)].
Proof.
  intros Hmode Hfetch Hmissing r. subst r.
  run. rewrite Hfetch, Hmode. run.
  rewrite !truthy_js_or.
  assert (negb (truthy (Args.providerID args) || truthy (inherited Message.providerID msgs))
          || negb (truthy (Args.modelID args) || truthy (inherited Message.modelID msgs)) = true) as ->.
  { destruct Hmissing as [[-> ->]|[-> ->]]; cbn; [done|]. apply orb_true_r. }
  run. done.
Qed.

(** C10 (amended). In mode [compact] with a provider and a model resolved:
    when the marker prompt throws, the three stores are unchanged, the calls
    issued are the fetch, the marker prompt and the notification, and
    [execute] returns ["Error: "] followed by the message provided the
    notification call returns (its own exception propagates otherwise);
    when the marker prompt returns, the pending compaction of the session is
    staged. *)
Theorem compact_stages_after_marker (args : Args.t) (toolCtx : ToolCtx.t) (st : Stores)
    (msgs : list Message.t) :
  Args.mode args = compact ->
  session_messages client (ToolCtx.sessionID toolCtx) (ToolCtx.directory toolCtx) = inr msgs ->
  truthy (Args.providerID args ||| inherited Message.providerID msgs) = true ->
  truthy (Args.modelID args ||| inherited Message.modelID msgs) = true ->
  let r := execute client JSON_parse JSON_stringify args toolCtx st in
  let sessionID := ToolCtx.sessionID toolCtx in
  let targetDirectory := js_or_string (Args.directory args) (ToolCtx.directory toolCtx) in
  let fetch := SessionMessages sessionID (ToolCtx.directory toolCtx) in
  let marker :=
    Body.mk (Some true) None None None None
      [TextPart (if truthy (Args.agent args)
                 then "[Session will compact after this response - "
                      +:+ template (Args.agent args) +:+ " agent will continue]"
                 else "[Session will compact after this response]")] in
  (forall error,
     session_prompt client sessionID targetDirectory marker = inl error ->
     let toast := "Session operation failed: " +:+ error_message error in
     stores r = st /\
     map fst (calls r) =
       [fetch; SessionPrompt sessionID targetDirectory marker; ShowToast toast "error"] /\
     In (SessionPrompt sessionID targetDirectory marker, Threw error) (calls r) /\
     (tui_showToast client toast "error" = inr tt ->
      result r = inr ("Error: " +:+ error_message error)) /\
     (forall error', tui_showToast client toast "error" = inl error' ->
      result r = inl error')) /\
  (session_prompt client sessionID targetDirectory marker = inr tt ->
   exists providerID modelID,
     Args.providerID args ||| inherited Message.providerID msgs = Some providerID /\
     Args.modelID args ||| inherited Message.modelID msgs = Some modelID /\
     pendingCompactions (stores r) =
       <[sessionID := CompactionRequest.mk providerID modelID
                        (Args.agent args ||| inherited Message.agent msgs)
                        (Args.system args ||| inherited Message.system msgs)
                        (Args.tools args ||| inheritedTools JSON_stringify msgs)
                        (Args.text args) targetDirectory]> (pendingCompactions st) /\
     pendingMessages (stores r) = pendingMessages st /\
     activeCompactions (stores r) = activeCompactions st /\
     calls r = [(fetch, Returned); (SessionPrompt sessionID targetDirectory marker, Returned)]).
Proof.
  intros Hmode Hfetch Hprovider Hmodel r sessionID targetDirectory fetch marker.
  subst r sessionID targetDirectory fetch marker.
  run. rewrite Hfetch, Hmode. run. rewrite Hprovider, Hmodel. run.
  split.
  - intros error Hmarker. rewrite Hmarker. run.
    destruct (tui_showToast client _ _) as [error'|[]] eqn:Htoast;
      cbn; settle; destruct st; auto.
  - intros Hmarker. rewrite Hmarker. run.
    exists (template (Args.providerID args ||| inherited Message.providerID msgs)),
           (template (Args.modelID args ||| inherited Message.modelID msgs)).
    settle; by apply truthy_template.
Qed.

Lemma orderly_parse_tools (tools : option string) :
  orderly (parse_tools JSON_parse tools).
Proof. unfold parse_tools. destruct (truthy tools); [apply orderly_lift|apply orderly_ret]. Qed.

Lemma orderly_first_prompt async id directory body :
  orderly (first_prompt client async id directory body).
Proof.
  unfold first_prompt, promptAsync, prompt.
  destruct (truthy_bool async); by apply orderly_await.
Qed.

Lemma orderly_execute_body (args : Args.t) (toolCtx : ToolCtx.t) :
  orderly (execute_body client JSON_parse JSON_stringify args toolCtx).
Proof.
  unfold execute_body.
  apply orderly_bind; [by apply orderly_await|]. intros msgs.
  destruct (Args.mode args).
  - apply orderly_bind; [apply orderly_set_pendingMessages|]. intros _. apply orderly_ret.
  - apply orderly_bind; [by apply orderly_await|]. intros newSession.
    apply orderly_bind; [apply orderly_parse_tools|]. intros parsed.
    apply orderly_bind; [apply orderly_first_prompt|]. intros _. apply orderly_ret.
  - apply orderly_rethrow.
    destruct (negb _ || negb _); [apply orderly_ret|].
    apply orderly_bind; [by apply orderly_await|]. intros _.
    apply orderly_bind; [apply orderly_set_pendingCompactions|]. intros _. apply orderly_ret.
  - apply orderly_bind; [by apply orderly_await|]. intros forkedSession.
    apply orderly_bind.
    { destruct (truthy (Args.title args)); [by apply orderly_await|apply orderly_ret]. }
    intros _.
    apply orderly_bind; [apply orderly_parse_tools|]. intros parsed.
    apply orderly_bind; [apply orderly_first_prompt|]. intros _. apply orderly_ret.
Qed.

(** C7 (amended). For every call of [execute], in every mode: when a call
    other than the notification threw [error], the last call of the run is
    the notification carrying the message of [error]; when that
    notification call returns, [execute] returns ["Error: "] followed by
    the message; when the notification call itself throws, its exception
    propagates out of [execute].  When the notification never throws,
    [execute] always returns a string. *)
Theorem execute_reports_errors (args : Args.t) (toolCtx : ToolCtx.t) (st : Stores) :
  let r := execute client JSON_parse JSON_stringify args toolCtx st in
  (forall c error,
     In (c, Threw error) (calls r) -> is_toast c = false ->
     let toast := "Session operation failed: " +:+ error_message error in
     exists o,
       last (calls r) = Some (ShowToast toast "error", o) /\
       match tui_showToast client toast "error" with
       | inr _ => o = Returned /\ result r = inr ("Error: " +:+ error_message error)
       | inl error' => o = Threw error' /\ result r = inl error'
       end) /\
  ((forall m, tui_showToast client m "error" = inr tt) -> exists s, result r = inr s).
Proof.
  intros r. subst r. unfold execute, try_catch.
  destruct (orderly_execute_body args toolCtx st) as [Hquiet Hthrew].
  destruct (execute_body _ _ _ _ _ st) as [[error0|s] st1 calls1]; cbn in *.
  - run. split.
    + intros c error Hin Hc.
      assert (error = error0) as ->.
      { destruct (tui_showToast client _ _); cbn in Hin;
          apply in_app_or in Hin as [Hin|[[= <- ?]|[]]];
          try done; apply Hthrew in Hin; congruence. }
      destruct (tui_showToast client _ _) as [error'|[]]; cbn;
        eexists; (split; [apply last_snoc|done]).
    + intros Htoast. rewrite Htoast. cbn. eauto.
  - split; [|eauto].
    intros c error Hin Hc. apply Hthrew in Hin. done.
Qed.

Lemma parse_tools_calls (tools : option string) (st : Stores) :
  calls (parse_tools JSON_parse tools st) = [].
Proof. unfold parse_tools, lift, ret. by destruct (truthy tools). Qed.

Lemma parse_tools_result (tools : option string) (st : Stores) (parsed : option JSON) :
  result (parse_tools JSON_parse tools st) = inr parsed ->
  if truthy tools
  then exists v, JSON_parse (template tools) = inr v /\ parsed = Some v
  else parsed = None.
Proof.
  unfold parse_tools, lift, ret. destruct (truthy tools); cbn; [|congruence].
  destruct (JSON_parse _) as [error|v]; [done|]. intros [= <-]. eauto.
Qed.

(** C8 (amended). For every call of [execute] whose fetch of the messages
    returned, in each of the four modes.  The inherited values are those of
    the assistant message after which no assistant message arrived (its
    tools serialized), and are all absent when there is no assistant
    message.  The context is resolved for each of agent, modelID,
    providerID, system and tools separately: a non-empty argument is the
    resolved value; an absent or empty argument leaves the inherited value.
    The resolved context is what mode [message] stages as the relay, what
    mode [compact] stages as the compaction when it stages one, and what
    every prompt of modes [new] and [fork] carries (with ["build"] for a
    missing agent, the model for a non-empty modelID, the tools parsed). *)
Theorem context_inheritance (args : Args.t) (toolCtx : ToolCtx.t) (st : Stores)
    (msgs : list Message.t) :
  session_messages client (ToolCtx.sessionID toolCtx) (ToolCtx.directory toolCtx) = inr msgs ->
  let r := execute client JSON_parse JSON_stringify args toolCtx st in
  let sessionID := ToolCtx.sessionID toolCtx in
  let targetDirectory := js_or_string (Args.directory args) (ToolCtx.directory toolCtx) in
  let overrides (explicit inherited_value resolved : option string) : Prop :=
    (forall s, explicit = Some s -> s <> EmptyString -> resolved = Some s) /\
    (explicit = None \/ explicit = Some EmptyString -> resolved = inherited_value) in
  exists agent' modelID' providerID' system' tools' agent modelID providerID system tools,
    ((Forall (fun m => Message.role m <> "assistant") msgs /\
      agent' = None /\ modelID' = None /\ providerID' = None /\ system' = None /\
      tools' = None) \/
     (exists before m after,
        msgs = (before ++ m :: after)%list /\
        Message.role m = "assistant" /\
        Forall (fun m' => Message.role m' <> "assistant") after /\
        agent' = Message.agent m /\ modelID' = Message.modelID m /\
        providerID' = Message.providerID m /\ system' = Message.system m /\
        tools' = JSON_stringify <$> Message.tools m)) /\
    overrides (Args.agent args) agent' agent /\
    overrides (Args.modelID args) modelID' modelID /\
    overrides (Args.providerID args) providerID' providerID /\
    overrides (Args.system args) system' system /\
    overrides (Args.tools args) tools' tools /\
    (Args.mode args = message ->
     pendingMessages (stores r) !! sessionID =
       Some (PendingMessage.mk agent modelID providerID system tools
               (Args.text args) targetDirectory)) /\
    (Args.mode args = compact ->
     pendingCompactions (stores r) = pendingCompactions st \/
     exists provider model,
       providerID = Some provider /\ modelID = Some model /\
       pendingCompactions (stores r) =
         <[sessionID := CompactionRequest.mk provider model agent system tools
                          (Args.text args) targetDirectory]> (pendingCompactions st)) /\
    (Args.mode args = new \/ Args.mode args = fork ->
     forall c o, In (c, o) (calls r) ->
     forall id directory body,
       c = SessionPrompt id directory body \/ c = SessionPromptAsync id directory body ->
       Body.agent body = Some (js_or_string agent "build") /\
       Body.system body = system /\
       Body.model body =
         (if truthy modelID then Some (Model.mk modelID providerID) else None) /\
       (if truthy tools
        then exists v, JSON_parse (template tools) = inr v /\ Body.tools body = Some v
        else Body.tools body = None)).
Proof.
  intros Hfetch r sessionID targetDirectory overrides.
  exists (inherited Message.agent msgs), (inherited Message.modelID msgs),
    (inherited Message.providerID msgs), (inherited Message.system msgs),
    (inheritedTools JSON_stringify msgs),
    (Args.agent args ||| inherited Message.agent msgs),
    (Args.modelID args ||| inherited Message.modelID msgs),
    (Args.providerID args ||| inherited Message.providerID msgs),
    (Args.system args ||| inherited Message.system msgs),
    (Args.tools args ||| inheritedTools JSON_stringify msgs).
  assert (forall a b, overrides a b (a ||| b)) as Hoverrides.
  { intros a b. split; [intros s ? ?; by apply js_or_truthy|].
    intros ?%falsy_cases. by apply js_or_falsy. }
  split; [|repeat (split; [apply Hoverrides|])].
  { unfold inherited, inheritedTools.
    destruct (lastAssistant_cases msgs)
      as [[-> Hall]|(before & m & after & -> & Hmsgs & Hm & Hafter)].
    - left. by repeat split.
    - right. exists before, m, after. repeat split; done. }
  split; [|split].
  - intros Hmode. subst r. run. rewrite Hfetch, Hmode. run. apply lookup_insert_eq.
  - intros Hmode. subst r. run. rewrite Hfetch, Hmode. run.
    destruct (truthy (Args.providerID args ||| inherited Message.providerID msgs)) eqn:Hprovider;
      run; [|destruct st; by left].
    destruct (truthy (Args.modelID args ||| inherited Message.modelID msgs)) eqn:Hmodel;
      run; [|destruct st; by left].
    destruct (session_prompt client _ _ _) as [error|[]]; run.
    + destruct (tui_showToast client _ _) as [error'|[]]; run; by left.
    + right.
      exists (template (Args.providerID args ||| inherited Message.providerID msgs)),
             (template (Args.modelID args ||| inherited Message.modelID msgs)).
      repeat split; try reflexivity; by apply truthy_template.
  - intros Hmode c o Hin id directory body Hc.
    set (P := fun c : Call =>
           match c with
           | SessionPrompt _ _ body | SessionPromptAsync _ _ body =>
               Body.agent body =
                 Some (js_or_string (Args.agent args ||| inherited Message.agent msgs) "build") /\
               Body.system body = Args.system args ||| inherited Message.system msgs /\
               Body.model body =
                 (if truthy (Args.modelID args ||| inherited Message.modelID msgs)
                  then Some (Model.mk (Args.modelID args ||| inherited Message.modelID msgs)
                               (Args.providerID args ||| inherited Message.providerID msgs))
                  else None) /\
               (if truthy (Args.tools args ||| inheritedTools JSON_stringify msgs)
                then exists v,
                       JSON_parse (template (Args.tools args ||| inheritedTools JSON_stringify msgs))
                         = inr v /\ Body.tools body = Some v
                else Body.tools body = None)
           | _ => True
           end).
    assert (P c) as HP; [|by destruct Hc as [-> | ->]].
    clear Hc. revert c o Hin. subst r. unfold execute.
    apply all_calls_try_catch.
    + unfold execute_body.
      apply all_calls_bind_await; [done|]. intros msgs' Hmsgs'.
      assert (msgs' = msgs) as -> by congruence.
      set (Q := fun parsed : option JSON =>
             if truthy (Args.tools args ||| inheritedTools JSON_stringify msgs)
             then exists v,
                    JSON_parse (template (Args.tools args ||| inheritedTools JSON_stringify msgs))
                      = inr v /\ parsed = Some v
             else parsed = None).
      assert (all_calls P (parse_tools JSON_parse
                             (Args.tools args ||| inheritedTools JSON_stringify msgs)) /\
              forall st' parsed,
                result (parse_tools JSON_parse
                          (Args.tools args ||| inheritedTools JSON_stringify msgs) st')
                  = inr parsed -> Q parsed) as [Hsilent Hparsed].
      { split; [apply all_calls_silent, parse_tools_calls|].
        intros st' parsed. apply parse_tools_result. }
      assert (forall async id' directory' parsed,
                Q parsed ->
                all_calls P
                  (first_prompt client async id' directory'
                     (Body.mk None
                        (Some (js_or_string (Args.agent args ||| inherited Message.agent msgs)
                                 "build"))
                        (model_of (Args.modelID args ||| inherited Message.modelID msgs)
                                  (Args.providerID args ||| inherited Message.providerID msgs))
                        (Args.system args ||| inherited Message.system msgs)
                        parsed [TextPart (Args.text args)]))) as Hfirst.
      { intros async id' directory' parsed Hparsed'.
        unfold first_prompt, promptAsync, prompt.
        destruct (truthy_bool async); apply all_calls_await; by repeat split. }
      destruct Hmode as [-> | ->].
      * apply all_calls_bind; [by apply all_calls_await|]. intros newSession.
        eapply all_calls_bind_when; [apply Hsilent|apply Hparsed|]. intros parsed Hparsed'.
        apply all_calls_bind; [by apply Hfirst|]. intros _.
        by apply all_calls_silent.
      * apply all_calls_bind; [by apply all_calls_await|]. intros forkedSession.
        apply all_calls_bind.
        { destruct (truthy (Args.title args));
            [by apply all_calls_await|by apply all_calls_silent]. }
        intros _.
        eapply all_calls_bind_when; [apply Hsilent|apply Hparsed|]. intros parsed Hparsed'.
        apply all_calls_bind; [by apply Hfirst|]. intros _.
        by apply all_calls_silent.
    + intros error. apply all_calls_bind; [by apply all_calls_await|].
      intros _. by apply all_calls_silent.
Qed.

(** C9. In modes [new] and [fork], when the messages of the session were
    fetched and there is neither a (non-empty) agent argument nor an
    inherited agent: every prompt the run issues carries the agent
    ["build"]; and when the session is created (or forked and, with a
    title, retitled), the tools parse and the prompt returns, exactly one
    prompt is issued, into that session, and the acknowledgement returned
    names ["build"] and the session. *)
Theorem default_agent_is_build (args : Args.t) (toolCtx : ToolCtx.t) (st : Stores)
    (msgs : list Message.t) :
  Args.mode args = new \/ Args.mode args = fork ->
  session_messages client (ToolCtx.sessionID toolCtx) (ToolCtx.directory toolCtx) = inr msgs ->
  truthy (Args.agent args) = false ->
  truthy (inherited Message.agent msgs) = false ->
  let r := execute client JSON_parse JSON_stringify args toolCtx st in
  let targetDirectory := js_or_string (Args.directory args) (ToolCtx.directory toolCtx) in
  let tools_parse :=
    forall s, Args.tools args ||| inheritedTools JSON_stringify msgs = Some s ->
              s <> EmptyString -> exists v, JSON_parse s = inr v in
  let prompt_returns id :=
    forall body, session_prompt client id targetDirectory body = inr tt /\
                 session_promptAsync client id targetDirectory body = inr tt in
  let one_prompt id :=
    exists body,
      Body.agent body = Some "build" /\
      filter (fun c => is_prompt c = true) (map fst (calls r)) =
        [if truthy_bool (Args.async args)
         then SessionPromptAsync id targetDirectory body
         else SessionPrompt id targetDirectory body] in
  (forall c o, In (c, o) (calls r) ->
     prompt_agent c = None \/ prompt_agent c = Some (Some "build")) /\
  (Args.mode args = new ->
   forall id,
     session_create client targetDirectory (js_or_string (Args.title args) "New session") = inr id ->
     tools_parse -> prompt_returns id ->
     result r = inr (if truthy_bool (Args.async args)
                     then "New session created with build agent (async prompt, ID: " +:+ id +:+ ")"
                     else "New session created with build agent (ID: " +:+ id +:+ ")") /\
     one_prompt id) /\
  (Args.mode args = fork ->
   forall id,
     session_fork client (ToolCtx.sessionID toolCtx) targetDirectory = inr id ->
     (truthy (Args.title args) = true ->
      session_update client id targetDirectory (template (Args.title args)) = inr tt) ->
     tools_parse -> prompt_returns id ->
     result r = inr (if truthy_bool (Args.async args)
                     then "Forked session with build agent (async prompt) - history preserved (ID: "
                          +:+ id +:+ ")"
                     else "Forked session with build agent - history preserved (ID: " +:+ id +:+ ")") /\
     one_prompt id).
Proof.
  intros Hmode Hfetch Hexplicit Hinherited r targetDirectory tools_parse prompt_returns one_prompt.
  assert (truthy (Args.agent args ||| inherited Message.agent msgs) = false) as Hagent.
  { by rewrite truthy_js_or, Hexplicit, Hinherited. }
  assert (forall tools,
            (forall s, tools = Some s -> s <> EmptyString -> exists v, JSON_parse s = inr v) ->
            exists parsed, forall st', parse_tools JSON_parse tools st' = mkRun (inr parsed) st' [])
    as Hparse.
  { intros tools Hok. unfold parse_tools.
    destruct tools as [s|]; cbn; [|by eexists].
    destruct (String.eqb_spec s EmptyString) as [->|Hs]; cbn; [by eexists|].
    destruct (Hok s eq_refl Hs) as [v ->]. by eexists. }
  split; [|split].
  - subst r. unfold execute. intros c o.
    apply (all_calls_try_catch
             (fun c => prompt_agent c = None \/ prompt_agent c = Some (Some "build"))).
    + unfold execute_body.
      apply all_calls_bind_await; [by left|]. intros msgs' Hmsgs'.
      assert (msgs' = msgs) as -> by congruence.
      rewrite (js_or_string_falsy _ "build" Hagent).
      assert (forall async id directory body,
                Body.agent body = Some "build" ->
                all_calls (fun c => prompt_agent c = None \/ prompt_agent c = Some (Some "build"))
                  (first_prompt client async id directory body)) as Hfirst.
      { intros async id directory body Hbody. unfold first_prompt, promptAsync, prompt.
        destruct (truthy_bool async); apply all_calls_await; right; cbn; by rewrite Hbody. }
      assert (forall tools,
                all_calls (fun c => prompt_agent c = None \/ prompt_agent c = Some (Some "build"))
                  (parse_tools JSON_parse tools)) as Hsilent.
      { intros tools. apply all_calls_silent. intros st'. unfold parse_tools, lift, ret.
        by destruct (truthy tools). }
      destruct Hmode as [-> | ->].
      * apply all_calls_bind; [apply all_calls_await; by left|]. intros newSession.
        apply all_calls_bind; [apply Hsilent|]. intros parsed.
        apply all_calls_bind; [by apply Hfirst|]. intros _.
        by apply all_calls_silent.
      * apply all_calls_bind; [apply all_calls_await; by left|]. intros forkedSession.
        apply all_calls_bind.
        { destruct (truthy (Args.title args));
            [apply all_calls_await; by left|by apply all_calls_silent]. }
        intros _.
        apply all_calls_bind; [apply Hsilent|]. intros parsed.
        apply all_calls_bind; [by apply Hfirst|]. intros _.
        by apply all_calls_silent.
    + intros error. apply all_calls_bind; [apply all_calls_await; by left|].
      intros _. by apply all_calls_silent.
  - intros Hnew id Hcreate Htools Hprompt.
    destruct (Hparse _ Htools) as [parsed Hparsed].
    subst r one_prompt. run. rewrite Hfetch, Hnew. run.
    rewrite Hagent, (js_or_string_falsy _ "build" Hagent).
    fold targetDirectory. rewrite Hcreate. run.
    unfold parse_tools in Hparsed. rewrite Hparsed. run.
    destruct (truthy_bool (Args.async args)); run;
      rewrite ?(proj1 (Hprompt _)), ?(proj2 (Hprompt _)); run;
      (split; [done|]); eexists; (split; [|reflexivity]); done.
  - intros Hfork id Hforked Hupdate Htools Hprompt.
    destruct (Hparse _ Htools) as [parsed Hparsed].
    subst r one_prompt. run. rewrite Hfetch, Hfork. run.
    rewrite (js_or_string_falsy _ "build" Hagent).
    fold targetDirectory. rewrite Hforked. run.
    unfold parse_tools in Hparsed.
    destruct (truthy (Args.title args)); run;
      rewrite ?Hupdate by done; run; rewrite Hparsed; run;
      destruct (truthy_bool (Args.async args)); run;
      rewrite ?(proj1 (Hprompt _)), ?(proj2 (Hprompt _)); run;
      (split; [done|]); eexists; (split; [|reflexivity]); done.
Qed.

End Workflow.

(** ** Two calls in mode [message] *)

(** C5. After a call of the tool in mode [message] for session [S], any
    steps in between (in particular steps without an [idle] event for [S]),
    and a second call in mode [message] for [S] whose fetch of the messages
    returned: the pending relays hold exactly one entry for [S], and it is
    the payload of the second call. *)
Theorem message_twice_last_writer_wins
    (JSON_parse : string -> Thrown + JSON) (JSON_stringify : Permissions -> string)
    (client1 client2 : Client) (args1 args2 : Args.t) (toolCtx1 toolCtx2 : ToolCtx.t)
    (mid : list (Client * Step)) (st : Stores) (msgs2 : list Message.t) :
  Args.mode args1 = message ->
  Args.mode args2 = message ->
  ToolCtx.sessionID toolCtx1 = ToolCtx.sessionID toolCtx2 ->
  session_messages client2 (ToolCtx.sessionID toolCtx2) (ToolCtx.directory toolCtx2) = inr msgs2 ->
  let S := ToolCtx.sessionID toolCtx2 in
  let final :=
    steps JSON_parse JSON_stringify
      ((client1, Invoke args1 toolCtx1) :: mid ++ [(client2, Invoke args2 toolCtx2)]) st in
  let second :=
    PendingMessage.mk
      (Args.agent args2 ||| inherited Message.agent msgs2)
      (Args.modelID args2 ||| inherited Message.modelID msgs2)
      (Args.providerID args2 ||| inherited Message.providerID msgs2)
      (Args.system args2 ||| inherited Message.system msgs2)
      (Args.tools args2 ||| inheritedTools JSON_stringify msgs2)
      (Args.text args2)
      (js_or_string (Args.directory args2) (ToolCtx.directory toolCtx2)) in
  pendingMessages final !! S = Some second /\
  length (filter (fun entry => entry.1 = S) (map_to_list (pendingMessages final))) = 1.
Proof.
  intros Hmode1 Hmode2 Hsame Hfetch S final second.
  assert (pendingMessages final !! S = Some second) as Hlookup.
  { subst final. rewrite app_comm_cons, steps_app. cbn [steps step].
    run. rewrite Hfetch, Hmode2. run. apply lookup_insert_eq. }
  split; [done|]. by eapply one_entry.
Qed.


(** ** Concrete runs *)

(** *** The event reactor *)

(** C1, as stated, fails: a relay staged with the tools string ["{"] is
    pending for the session, and the [idle] event issues no prompt. *)
Lemma idle_relay_unparsable_tools :
  (exists pm,
     pendingMessages (relay_staged "{") !! "ses_1" = Some pm /\
     PendingMessage.tools pm = Some "{") /\
  calls (event (responsive history) JSON_.parse (idle "ses_1") (relay_staged "{")) = [] /\
  pendingMessages
    (stores (event (responsive history) JSON_.parse (idle "ses_1") (relay_staged "{")))
    !! "ses_1" = None.
Proof.
  split; [eexists; split; vm_compute; reflexivity|].
  split; vm_compute; reflexivity.
Qed.

Lemma idle_sends_pending_relay_witness :
  map fst (calls (event (responsive history) JSON_.parse (idle "ses_1") (relay_staged "{}"))) =
  [SessionPrompt "ses_1" "/work"
     (Body.mk None (Some "plan") (Some (Model.mk (Some "sonnet") (Some "anthropic")))
        (Some "be brief") (Some (JObject [])) [TextPart "continue"])].
Proof.
  destruct (idle_sends_pending_relay (responsive history) JSON_.parse "ses_1"
              (relay_staged "{}")
              (PendingMessage.mk (Some "plan") (Some "sonnet") (Some "anthropic")
                 (Some "be brief") (Some "{}") "continue" "/work"))
    as (_ & _ & _ & _ & _ & Hsent & _).
  - vm_compute. reflexivity.
  - apply (Hsent "{}" (JObject [])); [reflexivity|discriminate|vm_compute; reflexivity].
Defined.

Lemma idle_promotes_pending_compaction_witness :
  calls (event (responsive history) JSON_.parse (idle "ses_1") (compaction_staged "{}")) =
  [(SessionSummarize "ses_1" "/work" "anthropic" "sonnet", NotAwaited)].
Proof.
  destruct (idle_promotes_pending_compaction (responsive history) JSON_.parse "ses_1"
              (compaction_staged "{}")
              (CompactionRequest.mk "anthropic" "sonnet" (Some "plan") (Some "be brief")
                 (Some "{}") "continue" "/work"))
    as (_ & _ & _ & _ & Hcalls).
  - vm_compute. reflexivity.
  - vm_compute. reflexivity.
  - exact Hcalls.
Defined.

(** C3, as stated, fails: a compaction staged with the tools string ["{"]
    and promoted is active for the session, and the [compacted] event only
    waits: no prompt is issued. *)
Lemma compacted_unparsable_tools :
  (exists state,
     activeCompactions (compaction_active "{") !! "ses_1" = Some state /\
     CompactionState.tools state = Some "{") /\
  calls (event (responsive history) JSON_.parse (compacted "ses_1") (compaction_active "{")) =
  [(SetTimeout 100, Returned)].
Proof.
  split; [eexists; split; vm_compute; reflexivity|].
  vm_compute. reflexivity.
Qed.

(** *** The workflow engine *)

Lemma compact_without_model_witness :
  result (execute (responsive [user_message]) JSON_.parse JSON_.stringify
            (call_with compact None None) here no_stores) =
  inr "Error: No assistant messages found in session. Cannot determine model for compaction.".
Proof.
  apply (compact_without_model (responsive [user_message]) JSON_.parse JSON_.stringify
           (call_with compact None None) here no_stores [user_message]).
  - reflexivity.
  - reflexivity.
  - left. split; reflexivity.
Defined.

Lemma message_twice_last_writer_wins_witness :
  pendingMessages
    (steps JSON_.parse JSON_.stringify
       [(responsive history, Invoke (call_with message (Some "plan") None) here);
        (responsive history, Deliver (compacted "ses_1"));
        (responsive [], Invoke (call_with message (Some "build") (Some "{}")) here)]
       no_stores) !! "ses_1" =
  Some (PendingMessage.mk (Some "build") None None None (Some "{}") "continue" "/work").
Proof.
  apply (message_twice_last_writer_wins JSON_.parse JSON_.stringify
           (responsive history) (responsive [])
           (call_with message (Some "plan") None) (call_with message (Some "build") (Some "{}"))
           here here [(responsive history, Deliver (compacted "ses_1"))] no_stores []);
    reflexivity.
Defined.

(** C7, as stated, fails: when the backend is unreachable the fetch of the
    messages throws, the notification throws as well, and [execute] throws
    instead of returning a string. *)
Lemma execute_propagates_toast_failure :
  result (execute unreachable JSON_.parse JSON_.stringify
            (call_with message None None) here no_stores) =
  inl (ErrorObject "toast unavailable") /\
  calls (execute unreachable JSON_.parse JSON_.stringify
           (call_with message None None) here no_stores) =
  [(SessionMessages "ses_1" "/work", Threw (ErrorObject "backend unreachable"));
   (ShowToast "Session operation failed: backend unreachable" "error",
    Threw (ErrorObject "toast unavailable"))].
Proof. split; vm_compute; reflexivity. Qed.

Lemma execute_reports_errors_witness :
  result (execute (busy history) JSON_.parse JSON_.stringify
            (call_with new None None) here no_stores) =
  inr "Error: session is busy".
Proof.
  destruct (execute_reports_errors (busy history) JSON_.parse JSON_.stringify
              (call_with new None None) here no_stores) as [Hthrew _].
  destruct (Hthrew
              (SessionPrompt "ses_new" "/work"
                 (Body.mk None (Some "plan") (Some (Model.mk (Some "sonnet") (Some "anthropic")))
                    (Some "be brief") (Some (JObject [([114; 101; 97; 100]%N, JBool true)]))
                    [TextPart "continue"]))
              (ErrorObject "session is busy")) as (o & _ & _ & Hresult).
  - vm_compute. right. right. left. reflexivity.
  - reflexivity.
  - exact Hresult.
Defined.

(** C8, as stated, fails: the argument [agent] is given, as the empty
    string, and the staged relay carries the inherited agent instead. *)
Lemma empty_argument_does_not_override :
  Args.agent (call_with message (Some EmptyString) None) = Some EmptyString /\
  PendingMessage.agent <$>
    pendingMessages
      (stores (execute (responsive history) JSON_.parse JSON_.stringify
                 (call_with message (Some EmptyString) None) here no_stores)) !! "ses_1" =
  Some (Some "plan").
Proof. split; vm_compute; reflexivity. Qed.

Lemma context_inheritance_witness :
  PendingMessage.agent <$>
    pendingMessages
      (stores (execute (responsive history) JSON_.parse JSON_.stringify
                 (call_with message (Some "build") None) here no_stores)) !! "ses_1" =
  Some (Some "build").
Proof.
  destruct (context_inheritance (responsive history) JSON_.parse JSON_.stringify
              (call_with message (Some "build") None) here no_stores history eq_refl)
    as (agent' & modelID' & providerID' & system' & tools' &
        agent & modelID & providerID & system & tools &
        _ & [Hagent _] & _ & _ & _ & _ & Hmessage & _).
  change "ses_1" with (ToolCtx.sessionID here).
  rewrite (Hmessage eq_refl). cbn.
  rewrite (Hagent "build" eq_refl); [reflexivity|discriminate].
Defined.

Lemma default_agent_is_build_witness :
  result (execute (responsive [user_message]) JSON_.parse JSON_.stringify
            (call_with new None None) here no_stores) =
  inr "New session created with build agent (ID: ses_new)".
Proof.
  destruct (default_agent_is_build (responsive [user_message]) JSON_.parse JSON_.stringify
              (call_with new None None) here no_stores [user_message]
              (or_introl eq_refl) eq_refl eq_refl eq_refl) as (_ & Hnew & _).
  destruct (Hnew eq_refl "ses_new" eq_refl) as [Hresult _].
  - intros s Hs. discriminate Hs.
  - intros body. split; reflexivity.
  - exact Hresult.
Defined.

(** C10, as stated, fails: the marker prompt throws, the notification
    throws as well, and [execute] throws instead of returning an error
    string (no compaction is staged). *)
Lemma compact_marker_and_toast_failure :
  result (execute (busy_without_toast history) JSON_.parse JSON_.stringify
            (call_with compact None None) here no_stores) =
  inl (ErrorObject "toast unavailable") /\
  In (SessionPrompt "ses_1" "/work"
        (Body.mk (Some true) None None None None
           [TextPart "[Session will compact after this response]"]),
      Threw (ErrorObject "session is busy"))
     (calls (execute (busy_without_toast history) JSON_.parse JSON_.stringify
               (call_with compact None None) here no_stores)) /\
  stores (execute (busy_without_toast history) JSON_.parse JSON_.stringify
            (call_with compact None None) here no_stores) = no_stores.
Proof.
  split; [vm_compute; reflexivity|]. split; [|vm_compute; reflexivity].
  vm_compute. right. left. reflexivity.
Qed.

Lemma compact_stages_after_marker_witness :
  result (execute (busy history) JSON_.parse JSON_.stringify
            (call_with compact None None) here no_stores) =
  inr "Error: session is busy".
Proof.
  destruct (compact_stages_after_marker (busy history) JSON_.parse JSON_.stringify
              (call_with compact None None) here no_stores history
              eq_refl eq_refl eq_refl eq_refl) as [Hthrows _].
  destruct (Hthrows (ErrorObject "session is busy") eq_refl) as (_ & _ & _ & Hreturns & _).
  exact (Hreturns eq_refl).
Defined.

(** * Further properties *)

(** ** The event reactor, event by event *)

Ltac in_calls :=
  let Hin := fresh "Hin" in
  intros ? ? Hin; cbn in Hin;
  repeat (destruct Hin as [Hin|Hin]; [simplify_eq; first [by left|by right]|]);
  by destruct Hin.

Ltac other_sessions Hne :=
  let HS := fresh "HS" in
  intros ? HS%Hne; cbn; by rewrite ?lookup_delete_ne, ?lookup_insert_ne.

Section ReactorExtras.

Variable client : Client.
Variable JSON_parse : string -> Thrown + JSON.

(** X1. An event changes no store and issues no call when it carries no
    session identifier, when its type is neither [session.idle] nor
    [session.compacted], when it is [session.idle] for a session with no
    pending relay and no pending compaction, or when it is
    [session.compacted] for a session with no active compaction. *)
Theorem event_without_staged_work (ev : Event.t) (st : Stores) :
  (forall S,
     Event.sessionID ev = Some S ->
     (Event.type ev = "session.idle" ->
      pendingMessages st !! S = None /\ pendingCompactions st !! S = None) /\
     (Event.type ev = "session.compacted" -> activeCompactions st !! S = None)) ->
  let r := event client JSON_parse ev st in
  result r = inr tt /\ stores r = st /\ calls r = [].
Proof.
  intros Hnothing r. subst r. destruct ev as [type [S|]]; [|done].
  destruct (Hnothing S eq_refl) as [Hidle Hcompacted]. cbn in Hidle, Hcompacted.
  run.
  destruct (String.eqb_spec type "session.idle") as [->|Hnot_idle].
  - destruct (Hidle eq_refl) as [-> ->]. run. done.
  - run. destruct (String.eqb_spec type "session.compacted") as [->|Hnot_compacted].
    + rewrite (Hcompacted eq_refl). run. done.
    + run. done.
Qed.

(** X2. The [event] hook never throws: whatever the event, the stores and
    the behaviour of the backend, it returns. *)
Theorem event_never_throws (ev : Event.t) (st : Stores) :
  result (event client JSON_parse ev st) = inr tt.
Proof.
  destruct ev as [type [S|]]; [|done]. run.
  destruct (String.eqb type "session.idle").
  - run. destruct (pendingMessages st !! S) as [pm|]; run.
    + destruct (truthy (PendingMessage.tools pm)); run;
        [destruct (JSON_parse _); run|];
        try destruct (session_prompt client _ _ _) as [?|[]]; done.
    + destruct (pendingCompactions st !! S) as [pc|]; run; [done|].
      destruct (String.eqb type "session.compacted"); run; [|done].
      destruct (activeCompactions st !! S) as [state|]; run; [|done].
      destruct (truthy (CompactionState.tools state)); run;
        [destruct (JSON_parse _); run|];
        try destruct (session_prompt client _ _ _) as [?|[]]; done.
  - run. destruct (String.eqb type "session.compacted"); run; [|done].
    destruct (activeCompactions st !! S) as [state|]; run; [|done].
    destruct (truthy (CompactionState.tools state)); run;
      [destruct (JSON_parse _); run|];
      try destruct (session_prompt client _ _ _) as [?|[]]; done.
Qed.

(** X3. An event touches one session only: the entries of every other
    session are the same in the three stores after it, and every call it
    issues is addressed to the session of the event, the timer apart. *)
Theorem event_touches_its_session_only (ev : Event.t) (st : Stores) :
  let r := event client JSON_parse ev st in
  (forall S',
     Event.sessionID ev <> Some S' ->
     pendingMessages (stores r) !! S' = pendingMessages st !! S' /\
     pendingCompactions (stores r) !! S' = pendingCompactions st !! S' /\
     activeCompactions (stores r) !! S' = activeCompactions st !! S') /\
  (forall c o,
     In (c, o) (calls r) ->
     c = SetTimeout 100 \/ call_session c = Event.sessionID ev).
Proof.
  intros r. subst r. destruct ev as [type [S|]]; [|done]. run.
  assert (forall S', Some S <> Some S' -> S <> S') as Hne by congruence.
  destruct (String.eqb type "session.idle").
  - run. destruct (pendingMessages st !! S) as [pm|]; run.
    + destruct (truthy (PendingMessage.tools pm)); run;
        [destruct (JSON_parse _); run|];
        try destruct (session_prompt client _ _ _) as [?|[]];
        (split; [other_sessions Hne|in_calls]).
    + destruct (pendingCompactions st !! S) as [pc|]; run;
        [split; [other_sessions Hne|in_calls]|].
      destruct (String.eqb type "session.compacted"); run; [|done].
      destruct (activeCompactions st !! S) as [state|]; run; [|done].
      destruct (truthy (CompactionState.tools state)); run;
        [destruct (JSON_parse _); run|];
        try destruct (session_prompt client _ _ _) as [?|[]];
        (split; [other_sessions Hne|in_calls]).
  - run. destruct (String.eqb type "session.compacted"); run; [|done].
    destruct (activeCompactions st !! S) as [state|]; run; [|done].
    destruct (truthy (CompactionState.tools state)); run;
      [destruct (JSON_parse _); run|];
      try destruct (session_prompt client _ _ _) as [?|[]];
      (split; [other_sessions Hne|in_calls]).
Qed.

End ReactorExtras.

(** ** Staged work, from the call of the tool to the prompt *)


(** X4. With both a relay and a compaction pending for a session, the first
    [idle] event sends the relay only and leaves the compaction pending;
    the second [idle] event promotes the compaction and issues its
    [summarize] call. *)
Theorem relay_then_compaction (client1 client2 : Client)
    (JSON_parse : string -> Thrown + JSON) (S : string) (st : Stores)
    (pm : PendingMessage.t) (pc : CompactionRequest.t) :
  pendingMessages st !! S = Some pm ->
  pendingCompactions st !! S = Some pc ->
  let r1 := event client1 JSON_parse (idle S) st in
  let r2 := event client2 JSON_parse (idle S) (stores r1) in
  (forall c o, In (c, o) (calls r1) ->
     exists directory body, c = SessionPrompt S directory body) /\
  pendingCompactions (stores r1) !! S = Some pc /\
  activeCompactions (stores r1) = activeCompactions st /\
  calls r2 = [(SessionSummarize S (CompactionRequest.directory pc)
                 (CompactionRequest.providerID pc) (CompactionRequest.modelID pc),
               NotAwaited)] /\
  pendingMessages (stores r2) !! S = None /\
  pendingCompactions (stores r2) !! S = None /\
  is_Some (activeCompactions (stores r2) !! S).
Proof.
  intros Hrelay Hcompaction r1 r2.
  assert (stores r1 = mkStores (delete S (pendingMessages st)) (pendingCompactions st)
                        (activeCompactions st) /\
          forall c o, In (c, o) (calls r1) ->
            exists directory body, c = SessionPrompt S directory body) as [Hstores Hcalls].
  { subst r1. unfold idle. run. rewrite Hrelay. run.
    destruct (truthy (PendingMessage.tools pm)); run;
      [destruct (JSON_parse _); run|];
      try destruct (session_prompt client1 _ _ _) as [?|[]];
      (split; [done|]); intros c o Hin; cbn in Hin;
      repeat (destruct Hin as [Hin|Hin]; [simplify_eq; eauto|]); by destruct Hin. }
  split; [done|]. subst r2. rewrite Hstores. unfold idle. run.
  rewrite lookup_delete_eq. run. rewrite Hcompaction. run.
  rewrite !lookup_delete_eq, lookup_insert_eq. by repeat split.
Qed.



(** ** What the handlers leave alone *)

(** The stores a call of the tool leaves behind: unchanged, or with one
    relay staged by mode [message], or with one compaction, naming a
    provider and a model, staged by mode [compact]. *)
Lemma execute_stores (client : Client) (JSON_parse : string -> Thrown + JSON)
    (JSON_stringify : Permissions -> string) (args : Args.t) (toolCtx : ToolCtx.t)
    (st : Stores) :
  let r := execute client JSON_parse JSON_stringify args toolCtx st in
  stores r = st \/
  (Args.mode args = message /\
   exists pm,
     stores r = mkStores (<[ToolCtx.sessionID toolCtx := pm]> (pendingMessages st))
                  (pendingCompactions st) (activeCompactions st)) \/
  (Args.mode args = compact /\
   exists pc,
     CompactionRequest.providerID pc <> EmptyString /\
     CompactionRequest.modelID pc <> EmptyString /\
     stores r = mkStores (pendingMessages st)
                  (<[ToolCtx.sessionID toolCtx := pc]> (pendingCompactions st))
                  (activeCompactions st)).
Proof.
  intros r. subst r. destruct st as [pending_m pending_c active]. run.
  destruct (session_messages client _ _) as [error|msgs]; run.
  { destruct (tui_showToast client _ _) as [?|[]]; run; by left. }
  destruct (Args.mode args) eqn:Hmode; run.
  - right. left. split; [done|]. by eexists.
  - destruct (session_create client _ _) as [error|id]; run;
      [destruct (tui_showToast client _ _) as [?|[]]; run; by left|].
    destruct (truthy (Args.tools args ||| _)); run;
      [destruct (JSON_parse _); run|];
      try (destruct (truthy_bool (Args.async args)); run;
           [destruct (session_promptAsync client _ _ _) as [?|[]]
           |destruct (session_prompt client _ _ _) as [?|[]]]; run);
      try (destruct (tui_showToast client _ _) as [?|[]]; run); by left.
  - destruct (truthy (Args.providerID args ||| _)) eqn:Hprovider; run; [|by left].
    destruct (truthy (Args.modelID args ||| _)) eqn:Hmodel; run; [|by left].
    destruct (session_prompt client _ _ _) as [error|[]]; run;
      [destruct (tui_showToast client _ _) as [?|[]]; run; by left|].
    right. right. split; [done|]. eexists. split; [|split; [|reflexivity]]; cbn.
    + destruct (Args.providerID args ||| _) as [s|]; [|done]. cbn in *.
      by destruct (String.eqb_spec s EmptyString).
    + destruct (Args.modelID args ||| _) as [s|]; [|done]. cbn in *.
      by destruct (String.eqb_spec s EmptyString).
  - destruct (session_fork client _ _) as [error|id]; run;
      [destruct (tui_showToast client _ _) as [?|[]]; run; by left|].
    destruct (truthy (Args.title args)); run;
      [destruct (session_update client _ _ _) as [?|[]]; run;
       [destruct (tui_showToast client _ _) as [?|[]]; run; by left|]|];
      (destruct (truthy (Args.tools args ||| _)); run;
       [destruct (JSON_parse _); run|];
       try (destruct (truthy_bool (Args.async args)); run;
            [destruct (session_promptAsync client _ _ _) as [?|[]]
            |destruct (session_prompt client _ _ _) as [?|[]]]; run);
       try (destruct (tui_showToast client _ _) as [?|[]]; run); by left).
Qed.

(** The stores an event leaves behind. *)
Lemma event_stores (client : Client) (JSON_parse : string -> Thrown + JSON)
    (ev : Event.t) (st : Stores) :
  let r := event client JSON_parse ev st in
  stores r = st \/
  exists S,
    stores r = mkStores (delete S (pendingMessages st)) (pendingCompactions st)
                 (activeCompactions st) \/
    stores r = mkStores (pendingMessages st) (pendingCompactions st)
                 (delete S (activeCompactions st)) \/
    exists pc,
      pendingCompactions st !! S = Some pc /\
      stores r = mkStores (pendingMessages st) (delete S (pendingCompactions st))
                   (<[S := CompactionState.mk "compacting"
                            (CompactionRequest.agent pc)
                            (Some (CompactionRequest.modelID pc))
                            (Some (CompactionRequest.providerID pc))
                            (CompactionRequest.system pc)
                            (CompactionRequest.tools pc)
                            (CompactionRequest.text pc)
                            (CompactionRequest.directory pc)]> (activeCompactions st)).
Proof.
  intros r. subst r. destruct st as [pending_m pending_c active].
  destruct ev as [type [S|]]; [|by left]. run.
  destruct (String.eqb type "session.idle").
  - run. destruct (pending_m !! S) as [pm|]; run.
    + right. exists S. left.
      destruct (truthy (PendingMessage.tools pm)); run;
        [destruct (JSON_parse _); run|];
        try destruct (session_prompt client _ _ _) as [?|[]]; done.
    + destruct (pending_c !! S) as [pc|] eqn:Hpc; run.
      * right. exists S. right. right. by exists pc.
      * destruct (String.eqb type "session.compacted"); run; [|by left].
        destruct (active !! S) as [state|] eqn:Hactive; run; [|by left].
        right. exists S. right. left.
        destruct (truthy (CompactionState.tools state)); run;
          [destruct (JSON_parse _); run|];
          try destruct (session_prompt client _ _ _) as [?|[]]; done.
  - run. destruct (String.eqb type "session.compacted"); run; [|by left].
    destruct (active !! S) as [state|] eqn:Hactive; run; [|by left].
    right. exists S. right. left.
    destruct (truthy (CompactionState.tools state)); run;
      [destruct (JSON_parse _); run|];
      try destruct (session_prompt client _ _ _) as [?|[]]; done.
Qed.

(** X7. A call of the tool for a session leaves the active compactions as
    they are, and the pending entries of every other session as they are;
    only mode [message] changes the pending relays, only mode [compact] the
    pending compactions, and modes [new] and [fork] change no store. *)
Theorem execute_touches_its_session_only (client : Client)
    (JSON_parse : string -> Thrown + JSON) (JSON_stringify : Permissions -> string)
    (args : Args.t) (toolCtx : ToolCtx.t) (st : Stores) :
  let r := execute client JSON_parse JSON_stringify args toolCtx st in
  activeCompactions (stores r) = activeCompactions st /\
  (forall S', S' <> ToolCtx.sessionID toolCtx ->
     pendingMessages (stores r) !! S' = pendingMessages st !! S' /\
     pendingCompactions (stores r) !! S' = pendingCompactions st !! S') /\
  (Args.mode args <> message -> pendingMessages (stores r) = pendingMessages st) /\
  (Args.mode args <> compact -> pendingCompactions (stores r) = pendingCompactions st).
Proof.
  intros r.
  destruct (execute_stores client JSON_parse JSON_stringify args toolCtx st)
    as [Hsame|[[Hmode (pm & Hstaged)]|[Hmode (pc & _ & _ & Hstaged)]]];
    fold r in Hsame || fold r in Hstaged.
  - rewrite Hsame. by repeat split.
  - rewrite Hstaged. cbn. repeat split; try done.
    by rewrite lookup_insert_ne.
  - rewrite Hstaged. cbn. repeat split; try done.
    by rewrite lookup_insert_ne.
Qed.

Lemma step_keeps_model (JSON_parse : string -> Thrown + JSON)
    (JSON_stringify : Permissions -> string) (client : Client) (s : Step) (st : Stores) :
  compactions_have_model st ->
  compactions_have_model (step JSON_parse JSON_stringify client s st).
Proof.
  intros [Hpending Hactive]. destruct s as [args toolCtx|ev|S error]; cbn [step].
  - destruct (execute_stores client JSON_parse JSON_stringify args toolCtx st)
      as [->|[[_ (pm & ->)]|[_ (pc & Hp & Hm & ->)]]]; [done|done|].
    split; [|done]. intros S pc'. cbn.
    destruct (decide (ToolCtx.sessionID toolCtx = S)) as [<-|Hne].
    + rewrite lookup_insert_eq. by intros [= <-].
    + rewrite lookup_insert_ne by done. apply Hpending.
  - destruct (event_stores client JSON_parse ev st)
      as [->|(S & [->|[->|(pc & Hpc & ->)]])]; [done|done| |].
    + split; [done|]. intros S' state. cbn.
      intros [_ Hstate]%lookup_delete_Some. by eapply Hactive.
    + destruct (Hpending S pc Hpc) as [Hp Hm].
      split; intros S' x; cbn.
      * intros [_ Hx]%lookup_delete_Some. by eapply Hpending.
      * destruct (decide (S = S')) as [<-|Hne].
        -- rewrite lookup_insert_eq. intros [= <-]. cbn.
           by destruct (String.eqb_spec (CompactionRequest.providerID pc) EmptyString),
                       (String.eqb_spec (CompactionRequest.modelID pc) EmptyString).
        -- rewrite lookup_insert_ne by done. apply Hactive.
  - split; [done|]. intros S' state. cbn.
    intros [_ Hstate]%lookup_delete_Some. by eapply Hactive.
Qed.

Lemma steps_keep_model (JSON_parse : string -> Thrown + JSON)
    (JSON_stringify : Permissions -> string) (l : list (Client * Step)) (st : Stores) :
  compactions_have_model st ->
  compactions_have_model (steps JSON_parse JSON_stringify l st).
Proof.
  revert st. induction l as [|[client s] l IH]; intros st Hst; [done|].
  cbn. by apply IH, step_keeps_model.
Qed.

(** X8. Whatever calls of the tool, events and rejections ran since the
    plugin was loaded, every pending compaction names a non-empty provider
    and model and so does every active one; hence every prompt a
    [compacted] event issues then carries a model pair. *)
Theorem staged_compactions_name_a_model (JSON_parse : string -> Thrown + JSON)
    (JSON_stringify : Permissions -> string) (l : list (Client * Step))
    (client : Client) (S : string) :
  let st := steps JSON_parse JSON_stringify l (mkStores ∅ ∅ ∅) in
  compactions_have_model st /\
  (forall c o,
     In (c, o) (calls (event client JSON_parse (compacted S) st)) ->
     forall id directory body,
       c = SessionPrompt id directory body ->
       exists model provider,
         Body.model body = Some (Model.mk (Some model) (Some provider)) /\
         model <> EmptyString /\ provider <> EmptyString).
Proof.
  intros st.
  assert (compactions_have_model st) as Hst.
  { apply steps_keep_model. split; intros S' x; cbn; by rewrite lookup_empty. }
  split; [done|]. destruct Hst as [_ Hactive].
  unfold compacted. run.
  destruct (activeCompactions st !! S) as [state|] eqn:Hstate; run; [|by intros ? ? []].
  destruct (Hactive S state Hstate) as (_ & Hp & Hm).
  assert (exists model provider,
            CompactionState.modelID state = Some model /\
            CompactionState.providerID state = Some provider /\
            model <> EmptyString /\ provider <> EmptyString) as (model & provider & Hmodel & Hprovider & ? & ?).
  { destruct (CompactionState.modelID state) as [model|]; [|done].
    destruct (CompactionState.providerID state) as [provider|]; [|done].
    exists model, provider. cbn in Hp, Hm.
    by destruct (String.eqb_spec model EmptyString), (String.eqb_spec provider EmptyString). }
  unfold model_if_both. rewrite Hp, Hm. cbn [andb]. rewrite Hmodel, Hprovider.
  destruct (truthy (CompactionState.tools state)); run;
    [destruct (JSON_parse _); run|];
    try destruct (session_prompt client _ _ _) as [?|[]];
    intros c o Hin id directory body ->; cbn in Hin;
    repeat (destruct Hin as [Hin|Hin]; [simplify_eq; eauto|]); by destruct Hin.
Qed.

(** ** The workflow engine, mode by mode *)

Lemma no_failure_nil : no_failure [].
Proof. intros c error []. Qed.

Lemma no_failure_app (l1 l2 : list (Call * Outcome)) :
  no_failure l1 -> no_failure l2 -> no_failure (l1 ++ l2).
Proof. intros H1 H2 c error [Hin|Hin]%in_app_or; [by eapply H1|by eapply H2]. Qed.

Lemma stops_silent {A} (m : M A) :
  (forall st, calls (m st) = []) -> stops_at_failure m.
Proof. intros Hm st. left. rewrite Hm. apply no_failure_nil. Qed.

Lemma stops_await {A} (c : Call) (answer : Thrown + A) : stops_at_failure (await c answer).
Proof.
  intros st. unfold await. destruct answer as [error|a]; cbn.
  - right. exists [], c, error. repeat split. apply no_failure_nil.
  - left. intros c' error [Heq|[]]. by simplify_eq.
Qed.

Lemma stops_bind {A B} (m : M A) (k : A -> M B) :
  stops_at_failure m -> (forall a, stops_at_failure (k a)) -> stops_at_failure (bind m k).
Proof.
  intros Hm Hk st. unfold bind. specialize (Hm st).
  destruct (m st) as [[error|a] st1 calls1]; cbn in *.
  - destruct Hm as [Hm|(before & c & error' & -> & [= ->] & Hbefore)]; [by left|].
    right. by exists before, c, error'.
  - destruct Hm as [Hm|(before & c & error' & _ & [=] & _)].
    specialize (Hk a st1). destruct (k a st1) as [result2 st2 calls2]; cbn in *.
    destruct Hk as [Hk|(before & c & error' & -> & -> & Hbefore)].
    + left. by apply no_failure_app.
    + right. exists (calls1 ++ before)%list, c, error'.
      rewrite app_assoc. repeat split. by apply no_failure_app.
Qed.

Lemma stops_rethrow {A} (m : M A) :
  stops_at_failure m -> stops_at_failure (try_catch m (fun error => throw error)).
Proof.
  intros Hm st. unfold try_catch, throw. specialize (Hm st).
  destruct (m st) as [[error|a] st1 calls1]; cbn in *; [|done].
  by rewrite app_nil_r.
Qed.

Lemma stops_execute_body (client : Client) (JSON_parse : string -> Thrown + JSON)
    (JSON_stringify : Permissions -> string) (args : Args.t) (toolCtx : ToolCtx.t) :
  stops_at_failure (execute_body client JSON_parse JSON_stringify args toolCtx).
Proof.
  assert (forall tools, stops_at_failure (parse_tools JSON_parse tools)) as Hparse.
  { intros tools. apply stops_silent. intros st. unfold parse_tools, lift, ret.
    by destruct (truthy tools). }
  assert (forall async id directory body,
            stops_at_failure (first_prompt client async id directory body)) as Hfirst.
  { intros. unfold first_prompt, promptAsync, prompt.
    destruct (truthy_bool async); apply stops_await. }
  assert (forall f, stops_at_failure (set_pendingMessages f)) as Hset_m
    by (intros; by apply stops_silent).
  assert (forall f, stops_at_failure (set_pendingCompactions f)) as Hset_c
    by (intros; by apply stops_silent).
  assert (forall s : string, stops_at_failure (ret s)) as Hret
    by (intros; by apply stops_silent).
  unfold execute_body.
  apply stops_bind; [apply stops_await|]. intros msgs.
  destruct (Args.mode args).
  - apply stops_bind; [apply Hset_m|]. intros _. apply Hret.
  - apply stops_bind; [apply stops_await|]. intros newSession.
    apply stops_bind; [apply Hparse|]. intros parsed.
    apply stops_bind; [apply Hfirst|]. intros _. apply Hret.
  - apply stops_rethrow.
    destruct (negb _ || negb _); [apply Hret|].
    apply stops_bind; [apply stops_await|]. intros _.
    apply stops_bind; [apply Hset_c|]. intros _. apply Hret.
  - apply stops_bind; [apply stops_await|]. intros forkedSession.
    apply stops_bind.
    { destruct (truthy (Args.title args)); [apply stops_await|by apply stops_silent]. }
    intros _.
    apply stops_bind; [apply Hparse|]. intros parsed.
    apply stops_bind; [apply Hfirst|]. intros _. apply Hret.
Qed.

Section WorkflowExtras.

Variable client : Client.
Variable JSON_parse : string -> Thrown + JSON.
Variable JSON_stringify : Permissions -> string.

(** X9. A call of the tool stops at the first call to the backend that
    throws: in its log, a call other than the notification that threw is
    followed by the notification and nothing else, and no call before it
    threw. *)
Theorem execute_stops_at_first_failure (args : Args.t) (toolCtx : ToolCtx.t) (st : Stores) :
  let r := execute client JSON_parse JSON_stringify args toolCtx st in
  forall c error,
    In (c, Threw error) (calls r) -> is_toast c = false ->
    exists before o,
      calls r =
        (before ++
         [(c, Threw error);
          (ShowToast ("Session operation failed: " +:+ error_message error) "error", o)])%list /\
      no_failure before.
Proof.
  intros r c error Hin Hc. subst r. revert Hin. unfold execute, try_catch.
  destruct (stops_execute_body client JSON_parse JSON_stringify args toolCtx st)
    as [Hnone|(before & c0 & error0 & Hcalls & Hresult & Hbefore)].
  - destruct (execute_body _ _ _ _ _ st) as [[error0|s] st1 calls1]; cbn in *.
    + run. destruct (tui_showToast client _ _) as [?|[]]; cbn;
        intros [Hin|[Hin|[]]]%in_app_or; simplify_eq; try done; by apply Hnone in Hin.
    + intros Hin. by apply Hnone in Hin.
  - destruct (execute_body _ _ _ _ _ st) as [[error1|s] st1 calls1]; cbn in *; [|done].
    simplify_eq. run.
    destruct (tui_showToast client _ _) as [?|[]]; cbn;
      rewrite <- app_assoc; cbn;
      intros [Hin|[Hin|[Hin|[]]]]%in_app_or; simplify_eq; try done;
      try (by apply Hbefore in Hin); by eexists _, _.
Qed.

(** X10. Mode [message] calls the backend once, to fetch the messages, and
    sends nothing.  When the fetch returns, the relay is staged for the
    current session with the text of the call and the target directory, the
    compactions are untouched, and the acknowledgement names the agent
    argument when there is a non-empty one.  When the fetch throws, nothing
    is staged. *)
Theorem message_mode_only_stages (args : Args.t) (toolCtx : ToolCtx.t) (st : Stores) :
  Args.mode args = message ->
  let r := execute client JSON_parse JSON_stringify args toolCtx st in
  let S := ToolCtx.sessionID toolCtx in
  let fetch := SessionMessages S (ToolCtx.directory toolCtx) in
  match session_messages client S (ToolCtx.directory toolCtx) with
  | inr msgs =>
      calls r = [(fetch, Returned)] /\
      (exists pm,
         pendingMessages (stores r) = <[S := pm]> (pendingMessages st) /\
         PendingMessage.text pm = Args.text args /\
         PendingMessage.directory pm =
           js_or_string (Args.directory args) (ToolCtx.directory toolCtx)) /\
      pendingCompactions (stores r) = pendingCompactions st /\
      activeCompactions (stores r) = activeCompactions st /\
      (forall agent, Args.agent args = Some agent -> agent <> EmptyString ->
         result r = inr ("Message sent to " +:+ agent
                         +:+ " agent. They will respond in this conversation.")) /\
      (truthy (Args.agent args) = false ->
         result r = inr "Message sent. Awaiting response in this conversation.")
  | inl error =>
      stores r = st /\
      map fst (calls r) =
        [fetch; ShowToast ("Session operation failed: " +:+ error_message error) "error"]
  end.
Proof.
  intros Hmode r S fetch. subst r S fetch. run.
  destruct (session_messages client _ _) as [error|msgs]; run.
  - destruct (tui_showToast client _ _) as [?|[]]; run; by destruct st.
  - rewrite Hmode. run. repeat split; try done.
    + by eexists.
    + intros agent -> Hagent. cbn. by destruct (String.eqb_spec agent EmptyString).
    + by intros ->.
Qed.

(** X11. Mode [new], when every call returns and the resolved tools are
    absent or parse: the calls are the fetch, the creation of a session in
    the target directory and one prompt into the created session, sent with
    [promptAsync] exactly when [async] is true.  The title is the title
    argument when non-empty, else ["Session via "] and the resolved agent when
    there is one, else ["New session"].  The prompt carries the resolved
    agent (["build"] without one), the model when a modelID is resolved, the
    resolved system, the parsed tools and the text.  The acknowledgement
    names the agent and the created session, and no store changes. *)
Theorem new_mode_creates_and_prompts (args : Args.t) (toolCtx : ToolCtx.t) (st : Stores)
    (msgs : list Message.t) (title name id : string) (parsed : option JSON) :
  Args.mode args = new ->
  session_messages client (ToolCtx.sessionID toolCtx) (ToolCtx.directory toolCtx) = inr msgs ->
  let targetDirectory := js_or_string (Args.directory args) (ToolCtx.directory toolCtx) in
  let agent := Args.agent args ||| inherited Message.agent msgs in
  let modelID := Args.modelID args ||| inherited Message.modelID msgs in
  let providerID := Args.providerID args ||| inherited Message.providerID msgs in
  let system := Args.system args ||| inherited Message.system msgs in
  let tools := Args.tools args ||| inheritedTools JSON_stringify msgs in
  (forall t, Args.title args = Some t -> t <> EmptyString -> title = t) ->
  (truthy (Args.title args) = false ->
   (forall a, agent = Some a -> a <> EmptyString -> title = "Session via " +:+ a) /\
   (truthy agent = false -> title = "New session")) ->
  (forall a, agent = Some a -> a <> EmptyString -> name = a) ->
  (truthy agent = false -> name = "build") ->
  session_create client targetDirectory title = inr id ->
  (truthy tools = false /\ parsed = None) \/
  (truthy tools = true /\ exists v, JSON_parse (template tools) = inr v /\ parsed = Some v) ->
  (forall body, session_prompt client id targetDirectory body = inr tt /\
                session_promptAsync client id targetDirectory body = inr tt) ->
  let r := execute client JSON_parse JSON_stringify args toolCtx st in
  let body :=
    Body.mk None (Some name)
      (if truthy modelID then Some (Model.mk modelID providerID) else None)
      system parsed [TextPart (Args.text args)] in
  calls r =
    [(SessionMessages (ToolCtx.sessionID toolCtx) (ToolCtx.directory toolCtx), Returned);
     (SessionCreate targetDirectory title, Returned);
     (if truthy_bool (Args.async args)
      then SessionPromptAsync id targetDirectory body
      else SessionPrompt id targetDirectory body, Returned)] /\
  result r =
    inr (if truthy_bool (Args.async args)
         then "New session created with " +:+ name +:+ " agent (async prompt, ID: " +:+ id +:+ ")"
         else "New session created with " +:+ name +:+ " agent (ID: " +:+ id +:+ ")") /\
  stores r = st.
Proof.
  intros Hmode Hfetch targetDirectory agent modelID providerID system tools
    Htitle Hdefault Hname Hbuild Hcreate Hparsed Hprompt r body.
  assert (js_or_string (Args.title args)
            (if truthy agent then "Session via " +:+ template agent else "New session") = title)
    as Htitle'.
  { destruct (Args.title args) as [t|] eqn:Ht; cbn.
    - destruct (String.eqb_spec t EmptyString) as [->|Hne]; [|symmetry; by apply Htitle].
      destruct (Hdefault eq_refl) as [Hvia Hnew].
      destruct agent as [a|] eqn:Ha; cbn; [|by rewrite Hnew].
      destruct (String.eqb_spec a EmptyString) as [->|Hne]; cbn; [by rewrite Hnew|].
      symmetry. by apply Hvia.
    - destruct (Hdefault eq_refl) as [Hvia Hnew].
      destruct agent as [a|] eqn:Ha; cbn; [|by rewrite Hnew].
      destruct (String.eqb_spec a EmptyString) as [->|Hne]; cbn; [by rewrite Hnew|].
      symmetry. by apply Hvia. }
  assert (js_or_string agent "build" = name) as Hname'.
  { destruct agent as [a|] eqn:Ha; cbn; [|by rewrite Hbuild].
    destruct (String.eqb_spec a EmptyString) as [->|Hne]; [by rewrite Hbuild|].
    symmetry. by apply Hname. }
  subst r body. run. rewrite Hfetch, Hmode. run.
  fold agent targetDirectory. rewrite Htitle', Hcreate. run.
  fold tools. rewrite Hname'. unfold model_of. fold modelID providerID system.
  destruct st as [pending_m pending_c active].
  destruct Hparsed as [[-> ->]|[-> (v & -> & ->)]]; run;
    destruct (truthy_bool (Args.async args)); run;
    rewrite ?(proj1 (Hprompt _)), ?(proj2 (Hprompt _)); run; done.
Qed.

(** X12. Mode [fork], when every call returns and the resolved tools are
    absent or parse: the calls are the fetch, the fork of the current
    session, the update of the title of the fork exactly when there is a
    non-empty title argument, and one prompt into the fork, sent with
    [promptAsync] exactly when [async] is true.  The acknowledgement names
    the agent and the fork, and no store changes. *)
Theorem fork_mode_forks_and_prompts (args : Args.t) (toolCtx : ToolCtx.t) (st : Stores)
    (msgs : list Message.t) (name id : string) (parsed : option JSON) :
  Args.mode args = fork ->
  session_messages client (ToolCtx.sessionID toolCtx) (ToolCtx.directory toolCtx) = inr msgs ->
  let S := ToolCtx.sessionID toolCtx in
  let targetDirectory := js_or_string (Args.directory args) (ToolCtx.directory toolCtx) in
  let agent := Args.agent args ||| inherited Message.agent msgs in
  let modelID := Args.modelID args ||| inherited Message.modelID msgs in
  let providerID := Args.providerID args ||| inherited Message.providerID msgs in
  let system := Args.system args ||| inherited Message.system msgs in
  let tools := Args.tools args ||| inheritedTools JSON_stringify msgs in
  (forall a, agent = Some a -> a <> EmptyString -> name = a) ->
  (truthy agent = false -> name = "build") ->
  session_fork client S targetDirectory = inr id ->
  (forall title, session_update client id targetDirectory title = inr tt) ->
  (truthy tools = false /\ parsed = None) \/
  (truthy tools = true /\ exists v, JSON_parse (template tools) = inr v /\ parsed = Some v) ->
  (forall body, session_prompt client id targetDirectory body = inr tt /\
                session_promptAsync client id targetDirectory body = inr tt) ->
  let r := execute client JSON_parse JSON_stringify args toolCtx st in
  let body :=
    Body.mk None (Some name)
      (if truthy modelID then Some (Model.mk modelID providerID) else None)
      system parsed [TextPart (Args.text args)] in
  let retitle :=
    match Args.title args with
    | Some title =>
        if String.eqb title EmptyString then []
        else [(SessionUpdate id targetDirectory title, Returned)]
    | None => []
    end in
  calls r =
    ([(SessionMessages S (ToolCtx.directory toolCtx), Returned);
      (SessionFork S targetDirectory, Returned)] ++
     retitle ++
     [(if truthy_bool (Args.async args)
       then SessionPromptAsync id targetDirectory body
       else SessionPrompt id targetDirectory body, Returned)])%list /\
  result r =
    inr (if truthy_bool (Args.async args)
         then "Forked session with " +:+ name
              +:+ " agent (async prompt) - history preserved (ID: " +:+ id +:+ ")"
         else "Forked session with " +:+ name
              +:+ " agent - history preserved (ID: " +:+ id +:+ ")") /\
  stores r = st.
Proof.
  intros Hmode Hfetch S targetDirectory agent modelID providerID system tools
    Hname Hbuild Hfork Hupdate Hparsed Hprompt r body retitle.
  assert (js_or_string agent "build" = name) as Hname'.
  { destruct agent as [a|] eqn:Ha; cbn; [|by rewrite Hbuild].
    destruct (String.eqb_spec a EmptyString) as [->|Hne]; [by rewrite Hbuild|].
    symmetry. by apply Hname. }
  subst r body retitle. run. rewrite Hfetch, Hmode. run.
  fold S agent targetDirectory. rewrite Hfork. run.
  fold tools. rewrite Hname'. unfold model_of. fold modelID providerID system.
  destruct st as [pending_m pending_c active].
  destruct (Args.title args) as [title|]; cbn [truthy template];
    [destruct (String.eqb title EmptyString); cbn [negb]|]; run;
    rewrite ?Hupdate; run;
    (destruct Hparsed as [[-> ->]|[-> (v & -> & ->)]]; run;
     destruct (truthy_bool (Args.async args)); run;
     rewrite ?(proj1 (Hprompt _)), ?(proj2 (Hprompt _)); run; done).
Qed.

End WorkflowExtras.

(** ** The reporting tools *)

(** *** Sorting *)

Lemma sort_insert_perm {A} (compare : A -> A -> Z) (x : A) (l : list A) :
  sort_insert compare x l ≡ₚ x :: l.
Proof.
  induction l as [|y l IH]; cbn; [done|].
  destruct (compare x y <=? 0)%Z; [done|].
  rewrite IH. apply Permutation_swap.
Qed.

Lemma sort_perm {A} (compare : A -> A -> Z) (l : list A) : sort compare l ≡ₚ l.
Proof.
  induction l as [|x l IH]; cbn; [done|].
  by rewrite sort_insert_perm, IH.
Qed.




Lemma sort_insert_snoc {A} (compare : A -> A -> Z) (x m : A) (l : list A) :
  (compare x m <= 0)%Z ->
  exists l', sort_insert compare x (l ++ [m]) = (l' ++ [m])%list.
Proof.
  intros Hx. induction l as [|y l [l' IH]]; cbn.
  - destruct (Z.leb_spec (compare x m) 0); [|lia]. by exists [x].
  - destruct (compare x y <=? 0)%Z.
    + by exists (x :: y :: l).
    + rewrite IH. by exists (y :: l').
Qed.

Lemma sort_insert_greatest {A} (compare : A -> A -> Z) (m : A) (l : list A) :
  Forall (fun y => (0 < compare m y)%Z) l ->
  sort_insert compare m l = (l ++ [m])%list.
Proof.
  induction 1 as [|y l Hy Hl IH]; cbn; [done|].
  destruct (Z.leb_spec (compare m y) 0); [lia|]. by rewrite IH.
Qed.

(** The last item of the sorted list is the item with the greatest key,
    the one that comes last among those that have it. *)
Lemma last_sort {A} (key : A -> Z) (compare : A -> A -> Z) (before after : list A) (m : A) :
  (forall a b, compare a b = (key a - key b)%Z) ->
  Forall (fun a => (key a <= key m)%Z) before ->
  Forall (fun a => (key a < key m)%Z) after ->
  last (sort compare (before ++ m :: after)) = Some m.
Proof.
  intros Hcompare Hbefore Hafter.
  assert (exists l, sort compare (before ++ m :: after) = (l ++ [m])%list) as [l ->];
    [|apply last_snoc].
  induction Hbefore as [|b before Hb Hbefore [l IH]]; cbn.
  - exists (sort compare after). apply sort_insert_greatest.
    rewrite sort_perm. eapply Forall_impl; [exact Hafter|].
    cbn. intros a Ha. rewrite Hcompare. lia.
  - fold (sort compare (before ++ m :: after)). rewrite IH.
    apply sort_insert_snoc. rewrite Hcompare. lia.
Qed.

Section ReportingExtras.

Variable client : Client.
Variable reports : Reports.

(** X13. [session_title] issues one call, the update of the title of the
    target session: the session of the argument when it is non-empty, the
    current session otherwise.  When the update returns, the tool returns
    the acknowledgement naming that session; when it throws, the tool
    notifies and, the notification returning, returns ["Error: "] and the
    message. *)
Theorem session_title_updates_target (args : TitleArgs.t) (toolCtx : ToolCtx.t)
    (target : string) :
  (forall s, TitleArgs.sessionID args = Some s -> s <> EmptyString -> target = s) ->
  (truthy (TitleArgs.sessionID args) = false -> target = ToolCtx.sessionID toolCtx) ->
  let r := session_title_execute client args toolCtx in
  let update :=
    SessionUpdate target
      (js_or_string (TitleArgs.directory args) (ToolCtx.directory toolCtx))
      (TitleArgs.title args) in
  match session_update client target
          (js_or_string (TitleArgs.directory args) (ToolCtx.directory toolCtx))
          (TitleArgs.title args) with
  | inr _ =>
      log r = [(Core update, Returned)] /\
      answer r = inr ("Session title updated (ID: " +:+ target +:+ ")")
  | inl error =>
      map fst (log r) =
        [Core update;
         Core (ShowToast ("Session title update failed: " +:+ error_message error) "error")] /\
      (tui_showToast client ("Session title update failed: " +:+ error_message error) "error"
         = inr tt ->
       answer r = inr ("Error: " +:+ error_message error))
  end.
Proof.
  intros Hgiven Hdefault r update.
  assert (js_or_string (TitleArgs.sessionID args) (ToolCtx.sessionID toolCtx) = target) as Htarget.
  { destruct (TitleArgs.sessionID args) as [s|] eqn:Hs; cbn; [|by rewrite Hdefault].
    destruct (String.eqb_spec s EmptyString) as [->|Hne]; [by rewrite Hdefault|].
    symmetry. by apply Hgiven. }
  subst r update. unfold session_title_execute. rewrite Htarget.
  unfold report_try, report_bind, report_await, showToast, report_ret.
  destruct (session_update client _ _ _) as [error|[]]; cbn; [|done].
  destruct (tui_showToast client _ _) as [error'|[]]; cbn; done.
Qed.

Lemma sort_not_empty {A} (compare : A -> A -> Z) (x : A) (l : list A) :
  is_Some (last (sort compare (x :: l))).
Proof.
  apply last_is_Some. intros Hnil.
  pose proof (sort_perm compare (x :: l)) as Hperm. rewrite Hnil in Hperm.
  by apply Permutation_nil_cons in Hperm.
Qed.

Lemma catch_reports_failures (prefix : string) (body : Report string) :
  fails_with_a_call body ->
  reports_failures client prefix
    (report_try body
       (fun error =>
          report_bind
            (showToast client (prefix +:+ error_message error) "error")
            (fun _ => report_ret ("Error: " +:+ error_message error)))).
Proof.
  intros [Hquiet Hbody]. destruct body as [[error|s] log1]; cbn in *.
  - destruct Hbody as [c0 Hc0].
    unfold showToast, report_await.
    destruct (tui_showToast client _ _) as [error'|[]] eqn:Htoast; cbn; split.
    + intros Hnone. specialize (Hnone c0 error). cbn in Hnone.
      rewrite (Hquiet _ _ Hc0) in Hnone. discriminate Hnone. apply in_or_app. by left.
    + intros _ _ _ _. exists c0, error. eexists. rewrite Htoast.
      repeat split; [apply in_or_app; by left|by eapply Hquiet|apply last_snoc].
    + intros Hnone. specialize (Hnone c0 error). cbn in Hnone.
      rewrite (Hquiet _ _ Hc0) in Hnone. discriminate Hnone. apply in_or_app. by left.
    + intros _ _ _ _. exists c0, error. eexists. rewrite Htoast.
      rewrite ?app_nil_r.
      repeat split; [apply in_or_app; by left|by eapply Hquiet|apply last_snoc].
  - split; [intros _; split; [by eexists|done]|].
    intros c error Hin. by apply Hbody in Hin.
Qed.

Lemma await_fails_with_a_call {A} (c : ReportCall) (answer : Thrown + A) :
  is_report_toast c = false -> fails_with_a_call (report_await c answer).
Proof.
  intros Hc. unfold report_await. split; cbn.
  - intros c' o [Heq|[]]. by simplify_eq.
  - destruct answer as [error|a]; cbn.
    + exists c. by left.
    + intros c' error [Heq|[]]. simplify_eq.
Qed.

Lemma bind_fails_with_a_call {A B} (m : Report A) (k : A -> Report B) :
  fails_with_a_call m -> (forall a, exists b, k a = report_ret b) ->
  fails_with_a_call (report_bind m k).
Proof.
  intros [Hquiet Hm] Hk. destruct m as [[error|a] log1]; cbn in *; [done|].
  destruct (Hk a) as [b ->]. cbn. by rewrite app_nil_r.
Qed.

Lemma all_fails_with_a_call {A B} (c1 c2 : ReportCall) (answer1 : Thrown + A)
    (answer2 : Thrown + B) (second_rejects_first : bool) :
  is_report_toast c1 = false -> is_report_toast c2 = false ->
  fails_with_a_call (report_all c1 answer1 c2 answer2 second_rejects_first).
Proof.
  intros Hc1 Hc2. unfold report_all. split; cbn.
  - intros c o [Heq|[Heq|[]]]; by simplify_eq.
  - destruct answer1 as [error1|a], answer2 as [error2|b]; cbn.
    + destruct second_rejects_first; eexists; [right; by left|by left].
    + eexists. by left.
    + eexists. right. by left.
    + intros c error [Heq|[Heq|[]]]; simplify_eq.
Qed.

(** X14. The four reporting tools report failures alike.  When no call of
    a tool threw, the tool returns a string and notifies nobody.  When a call
    other than the notification threw, the last call of the log is the
    notification, carrying after the prefix of the tool the message of the
    error of such a call; the tool then returns ["Error: "] and that message
    when the notification returns, and throws what the notification threw
    otherwise. *)
Theorem reporting_tools_report_failures (args : TitleArgs.t)
    (sessionID directory : option string) (toolCtx : ToolCtx.t) :
  reports_failures client "Session title update failed: "
    (session_title_execute client args toolCtx) /\
  reports_failures client "Session list failed: "
    (session_list_execute client reports directory toolCtx) /\
  reports_failures client "Session message lookup failed: "
    (session_last_message_execute client reports sessionID directory toolCtx) /\
  reports_failures client "Project list failed: "
    (project_list_execute client reports directory toolCtx).
Proof.
  split; [|split; [|split]]; apply catch_reports_failures; cbn zeta;
    apply bind_fails_with_a_call;
    try (by apply await_fails_with_a_call); try (by apply all_fails_with_a_call).
  - intros _. by eexists.
  - intros [[|session sessions] status]; by eexists.
  - intros [|m messages]; [by eexists|].
    destruct (sort_not_empty
                (fun a b => (SessionMessage.created a - SessionMessage.created b)%Z) m messages)
      as [lastMessage ->].
    by eexists.
  - intros [|project projects]; by eexists.
Qed.

(** X15. On an empty listing each listing tool answers with its fixed
    string and notifies nobody: [session_list] when the sessions are none
    and the status call returned as well, [session_last_message] when the
    session has no message, [project_list] when there is no project. *)
Theorem listings_of_nothing (sessionID directory : option string) (toolCtx : ToolCtx.t) :
  let targetDirectory := js_or_string directory (ToolCtx.directory toolCtx) in
  let targetSessionID := js_or_string sessionID (ToolCtx.sessionID toolCtx) in
  (session_list reports targetDirectory = inr [] ->
   forall status, session_status reports targetDirectory = inr status ->
   session_list_execute client reports directory toolCtx =
   mkReport (inr "No sessions found.")
     [(SessionList targetDirectory, Returned); (SessionStatus targetDirectory, Returned)]) /\
  (session_messages_parts reports targetSessionID targetDirectory = inr [] ->
   session_last_message_execute client reports sessionID directory toolCtx =
   mkReport (inr "No messages found.")
     [(Core (SessionMessages targetSessionID targetDirectory), Returned)]) /\
  (project_list reports targetDirectory = inr [] ->
   project_list_execute client reports directory toolCtx =
   mkReport (inr "No projects found.") [(ProjectList targetDirectory, Returned)]).
Proof.
  intros targetDirectory targetSessionID. repeat split.
  - intros Hlist status Hstatus. unfold session_list_execute. cbn zeta.
    fold targetDirectory. by rewrite Hlist, Hstatus.
  - intros Hmessages. unfold session_last_message_execute. cbn zeta.
    fold targetDirectory targetSessionID. by rewrite Hmessages.
  - intros Hprojects. unfold project_list_execute. cbn zeta.
    fold targetDirectory. by rewrite Hprojects.
Qed.


(** X17. [session_last_message] reports the message with the latest
    creation time, whatever the order of arrival, and among messages
    created at that time the one that arrived last; it shows its role, its
    identifier and its text parts, one per line, or [(no text content)]
    without a text part. *)
Theorem last_message_is_latest (sessionID directory : option string) (toolCtx : ToolCtx.t)
    (before after : list SessionMessage.t) (m : SessionMessage.t) :
  session_messages_parts reports
    (js_or_string sessionID (ToolCtx.sessionID toolCtx))
    (js_or_string directory (ToolCtx.directory toolCtx)) = inr (before ++ m :: after)%list ->
  Forall (fun a => (SessionMessage.created a <= SessionMessage.created m)%Z) before ->
  Forall (fun a => (SessionMessage.created a < SessionMessage.created m)%Z) after ->
  let texts :=
    map (fun part => default EmptyString (MessagePart.text part))
      (filter (fun part => MessagePart.type part = "text") (SessionMessage.parts m)) in
  answer (session_last_message_execute client reports sessionID directory toolCtx) =
  inr ("Last message (" +:+ SessionMessage.role m +:+ ") [" +:+ SessionMessage.id m +:+ "]:"
       +:+ newline
       +:+ match texts with
           | [] => "(no text content)"
           | _ :: _ => join newline texts
           end).
Proof.
  intros Hmessages Hbefore Hafter texts.
  unfold session_last_message_execute. cbn zeta. rewrite Hmessages.
  unfold report_try, report_bind, report_await. cbn [answer log].
  assert (last (sort (fun a b => (SessionMessage.created a - SessionMessage.created b)%Z)
                  (before ++ m :: after)) = Some m) as Hlast.
  { by apply (last_sort SessionMessage.created). }
  destruct (before ++ m :: after)%list as [|first rest] eqn:Hlist;
    [by destruct before|].
  rewrite Hlast. subst texts.
  destruct (filter _ (SessionMessage.parts m)) as [|part parts]; cbn -[join]; [done|].
  by rewrite map_map.
Qed.

End ReportingExtras.

(** ** Discovery of the agents *)

Lemma has_agent_spec (name : string) (agents : list AgentInfo.t) :
  has_agent name agents = true <-> name ∈ map AgentInfo.name agents.
Proof.
  unfold has_agent. rewrite existsb_exists, list_elem_of_fmap. split.
  - intros (a & Hin & Heq%String.eqb_eq). exists a. split; [done|]. by apply list_elem_of_In.
  - intros (a & -> & Hin). exists a. split; [by apply list_elem_of_In|apply String.eqb_refl].
Qed.

Lemma has_agent_false (name : string) (agents : list AgentInfo.t) :
  has_agent name agents = false <-> name ∉ map AgentInfo.name agents.
Proof.
  rewrite <- has_agent_spec. destruct (has_agent name agents); split; try done.
Qed.

Section DiscoveryFacts.

Variable host : Host.

Lemma scan_file_push (agentDir : string) (agents : list AgentInfo.t) (file : string) :
  scan_file host agentDir agents file =
  match defined_by host agentDir file with
  | Some a => push_new agents a
  | None => agents
  end.
Proof.
  unfold scan_file, defined_by, push_new.
  destruct (endsWith file ".md"); cbn; [|done].
  destruct (frontmatter host _) as [data|]; [|done].
  by destruct (decide _).
Qed.

Lemma scan_files_push (agentDir : string) (files : list string) (agents : list AgentInfo.t) :
  foldl (scan_file host agentDir) agents files =
  foldl push_new agents (omap (defined_by host agentDir) files).
Proof.
  revert agents. induction files as [|file files IH]; intros agents; cbn; [done|].
  rewrite IH, scan_file_push. by destruct (defined_by host agentDir file).
Qed.

Lemma scan_directories_push (agentDirs : list string) (agents : list AgentInfo.t) :
  foldl (scan_directory host) agents agentDirs =
  foldl push_new agents (definitions host agentDirs).
Proof.
  revert agents. induction agentDirs as [|agentDir agentDirs IH]; intros agents; cbn; [done|].
  rewrite IH. unfold definitions. cbn. rewrite foldl_app. f_equal.
  unfold scan_directory. destruct (readdir host agentDir) as [files|]; [|done].
  apply scan_files_push.
Qed.

End DiscoveryFacts.

Lemma push_new_names (l : list AgentInfo.t) (acc : list AgentInfo.t) (name : string) :
  name ∈ map AgentInfo.name (foldl push_new acc l) <->
  name ∈ map AgentInfo.name acc \/ name ∈ map AgentInfo.name l.
Proof.
  revert acc. induction l as [|a l IH]; intros acc; cbn.
  - rewrite elem_of_nil. tauto.
  - rewrite IH, elem_of_cons. unfold push_new.
    destruct (has_agent (AgentInfo.name a) acc) eqn:Ha.
    + apply has_agent_spec in Ha. split; [tauto|]. intros [?|[->|?]]; tauto.
    + rewrite map_app, elem_of_app. cbn. rewrite list_elem_of_singleton. tauto.
Qed.

Lemma push_new_NoDup (l : list AgentInfo.t) (acc : list AgentInfo.t) :
  NoDup (map AgentInfo.name acc) -> NoDup (map AgentInfo.name (foldl push_new acc l)).
Proof.
  revert acc. induction l as [|a l IH]; intros acc Hacc; cbn; [done|].
  apply IH. unfold push_new.
  destruct (has_agent (AgentInfo.name a) acc) eqn:Ha; [done|].
  apply has_agent_false in Ha. rewrite map_app. cbn.
  apply NoDup_app. split; [done|]. split; [|apply NoDup_singleton].
  intros name Hname ->%list_elem_of_singleton. done.
Qed.

Lemma push_new_sublist (l : list AgentInfo.t) (acc : list AgentInfo.t) :
  foldl push_new acc l `sublist_of` (acc ++ l)%list.
Proof.
  revert acc. induction l as [|a l IH]; intros acc; cbn.
  - by rewrite app_nil_r.
  - unfold push_new. destruct (has_agent (AgentInfo.name a) acc).
    + etrans; [apply IH|]. apply sublist_app; [done|]. by apply sublist_cons.
    + etrans; [apply IH|]. by rewrite <- app_assoc.
Qed.

(** An agent kept by [push_new] is the first of its name among those kept
    before and those pushed. *)
Lemma push_new_first (l : list AgentInfo.t) (acc : list AgentInfo.t) (a : AgentInfo.t) :
  (a ∈ foldl push_new acc l) ->
  (a ∈ acc) \/
  ((AgentInfo.name a ∉ map AgentInfo.name acc) /\
   exists pre post,
     l = (pre ++ a :: post)%list /\ (AgentInfo.name a ∉ map AgentInfo.name pre)).
Proof.
  revert acc. induction l as [|b l IH]; intros acc; cbn; [by left|].
  intros [Hacc|(Hnot & pre & post & -> & Hpre)]%IH.
  - unfold push_new in Hacc. destruct (has_agent (AgentInfo.name b) acc) eqn:Hb; [by left|].
    apply elem_of_app in Hacc as [?|Heq%list_elem_of_singleton]; [by left|]. subst a.
    right. split; [by apply has_agent_false|]. exists [], l. split; [done|]. cbn. apply not_elem_of_nil.
  - right. unfold push_new in Hnot.
    destruct (has_agent (AgentInfo.name b) acc) eqn:Hb.
    + split; [done|]. exists (b :: pre), post. split; [done|]. cbn.
      apply not_elem_of_cons. split; [|done].
      intros Heq. apply has_agent_spec in Hb. by rewrite <- Heq in Hb.
    + rewrite map_app, elem_of_app in Hnot. cbn in Hnot.
      rewrite list_elem_of_singleton in Hnot.
      split; [tauto|]. exists (b :: pre), post. split; [done|]. cbn.
      apply not_elem_of_cons. split; [tauto|done].
Qed.

Lemma scan_entries_spec (entries : list (string * AgentConfig)) (acc : gset string)
    (name : string) :
  name ∈ foldl scan_entry acc entries <-> name ∈ acc \/ (name, AgentObject true) ∈ entries.
Proof.
  revert acc. induction entries as [|[n c] entries IH]; intros acc; cbn.
  - rewrite elem_of_nil. tauto.
  - rewrite IH, elem_of_cons. unfold scan_entry. cbn.
    destruct c as [|[]]; [| |]; try (split; [tauto|intros [?|[[=]|?]]; tauto]).
    rewrite elem_of_union, elem_of_singleton. split.
    + intros [[->|?]|?]; tauto.
    + intros [?|[[= ->]|?]]; tauto.
Qed.

Lemma scan_configs_spec (host : Host) (configPaths : list string) (acc : gset string)
    (name : string) :
  name ∈ foldl (scan_config host) acc configPaths <->
  name ∈ acc \/
  exists configPath entries,
    configPath ∈ configPaths /\ config_agent host configPath = Some entries /\
    (name, AgentObject true) ∈ entries.
Proof.
  revert acc. induction configPaths as [|path paths IH]; intros acc; cbn.
  - split; [tauto|]. intros [?|(? & ? & []%elem_of_nil & _)]. done.
  - rewrite IH. unfold scan_config.
    destruct (config_agent host path) as [entries|] eqn:Hpath.
    + rewrite scan_entries_spec. split.
      * intros [[?|?]|(p & es & ? & ? & ?)]; [tauto| |].
        -- right. exists path, entries. repeat split; [left|done..].
        -- right. exists p, es. repeat split; [by right|done..].
      * intros [?|(p & es & [->|?]%elem_of_cons & Hp & ?)]; [tauto| |].
        -- rewrite Hpath in Hp. simplify_eq. tauto.
        -- right. by exists p, es.
    + split.
      * intros [?|(p & es & ? & ? & ?)]; [tauto|].
        right. exists p, es. repeat split; [by right|done..].
      * intros [?|(p & es & [->|?]%elem_of_cons & Hp & ?)]; [tauto| |].
        -- by rewrite Hpath in Hp.
        -- right. by exists p, es.
Qed.

(** What [discoverAgents] returns: the agents kept from the definition
    files, after the built-in agents without a definition file, without
    the disabled ones. *)
Lemma discoverAgents_unfold (host : Host) (projectDir : string) :
  let found := foldl push_new [] (definitions host (agent_directories host projectDir)) in
  let plan :=
    if has_agent "plan" found then []
    else [AgentInfo.mk "plan" (Some (builtin_description "plan"))] in
  let build :=
    if has_agent "build" found then []
    else [AgentInfo.mk "build" (Some (builtin_description "build"))] in
  discoverAgents host projectDir =
  filter (fun agent =>
            AgentInfo.name agent ∉
              foldl (scan_config host) ∅ (configuration_files host projectDir))
    (plan ++ build ++ found)%list.
Proof.
  intros found plan build. subst plan build. unfold discoverAgents.
  fold (xdg_base host). fold (agent_directories host projectDir).
  fold (configuration_files host projectDir).
  rewrite scan_directories_push. fold found. cbn [foldl].
  unfold add_builtin at 2. destruct (has_agent "build" found) eqn:Hbuild.
  - unfold add_builtin. by destruct (has_agent "plan" found).
  - unfold add_builtin. cbn [has_agent existsb AgentInfo.name String.eqb Ascii.eqb Bool.eqb orb].
    fold (has_agent "plan" found). by destruct (has_agent "plan" found).
Qed.

Lemma builtins_and_found_NoDup (found : list AgentInfo.t) :
  NoDup (map AgentInfo.name found) ->
  NoDup (map AgentInfo.name
           ((if has_agent "plan" found then []
             else [AgentInfo.mk "plan" (Some (builtin_description "plan"))]) ++
            (if has_agent "build" found then []
             else [AgentInfo.mk "build" (Some (builtin_description "build"))]) ++
            found)).
Proof.
  intros Hfound.
  destruct (has_agent "plan" found) eqn:Hplan, (has_agent "build" found) eqn:Hbuild;
    cbn; try done.
  - apply NoDup_cons. split; [by apply has_agent_false|done].
  - apply NoDup_cons. split; [by apply has_agent_false|done].
  - apply NoDup_cons. split.
    + apply not_elem_of_cons. split; [done|by apply has_agent_false].
    + apply NoDup_cons. split; [by apply has_agent_false|done].
Qed.

Section DiscoveryExtras.

Variable host : Host.
Variable projectDir : string.

(** X18. [discoverAgents] returns no two agents of the same name. *)
Theorem discovered_agents_have_distinct_names :
  NoDup (map AgentInfo.name (discoverAgents host projectDir)).
Proof.
  rewrite discoverAgents_unfold. cbn zeta.
  eapply sublist_NoDup; [|apply fmap_sublist, sublist_filter].
  apply builtins_and_found_NoDup, push_new_NoDup. constructor.
Qed.

(** X19. The names [discoverAgents] returns are exactly the names that no
    configuration file disables and that are either built in ([build],
    [plan]) or defined by a markdown file of mode [primary] or [all] in one of
    the two agent directories. *)
Theorem discovered_agents_names (name : string) :
  name ∈ map AgentInfo.name (discoverAgents host projectDir) <->
  ~ disabled host projectDir name /\
  (name = "build" \/ name = "plan" \/
   name ∈ map AgentInfo.name (definitions host (agent_directories host projectDir))).
Proof.
  rewrite discoverAgents_unfold. cbn zeta.
  set (found := foldl push_new [] (definitions host (agent_directories host projectDir))).
  assert (forall n, n ∈ map AgentInfo.name found <->
                    n ∈ map AgentInfo.name
                          (definitions host (agent_directories host projectDir))) as Hfound.
  { intros n. unfold found. rewrite push_new_names. cbn. rewrite elem_of_nil. tauto. }
  assert (forall n, n ∈ foldl (scan_config host) ∅ (configuration_files host projectDir) <->
                    disabled host projectDir n) as Hdisabled.
  { intros n. rewrite scan_configs_spec, elem_of_empty. unfold disabled. tauto. }
  rewrite list_elem_of_fmap. setoid_rewrite list_elem_of_filter.
  setoid_rewrite Hdisabled. split.
  - intros (a & -> & Hnot & Hin). split; [done|].
    apply elem_of_app in Hin as [Hin|Hin];
      [|apply elem_of_app in Hin as [Hin|Hin]].
    + destruct (has_agent "plan" found); [by apply elem_of_nil in Hin|].
      apply list_elem_of_singleton in Hin as ->. tauto.
    + destruct (has_agent "build" found); [by apply elem_of_nil in Hin|].
      apply list_elem_of_singleton in Hin as ->. tauto.
    + right. right. apply Hfound, list_elem_of_fmap. eauto.
  - intros [Hnot Hname].
    assert ((name ∈ map AgentInfo.name found) \/
            ((name ∉ map AgentInfo.name found) /\ (name = "build" \/ name = "plan")))
      as [Hin|[Hout Hbuiltin]].
    { destruct (decide (name ∈ map AgentInfo.name found)); [by left|].
      right. split; [done|]. rewrite Hfound in *. tauto. }
    + apply list_elem_of_fmap in Hin as (a & -> & Hin). exists a.
      repeat split; [done|]. rewrite !elem_of_app. tauto.
    + apply has_agent_false in Hout. destruct Hbuiltin as [-> | ->]; rewrite Hout.
      * exists (AgentInfo.mk "build" (Some (builtin_description "build"))).
        split; [done|]. split; [done|]. rewrite !elem_of_app.
        right. left. by apply list_elem_of_singleton.
      * exists (AgentInfo.mk "plan" (Some (builtin_description "plan"))).
        split; [done|]. split; [done|]. rewrite !elem_of_app.
        left. by apply list_elem_of_singleton.
Qed.

(** X20. An agent [discoverAgents] returns is the first definition of its
    name, in the order the directories and their files are read (the
    configuration directory before the project, each in the order of
    [readdir]); an agent of a name that no file defines is the built-in one,
    with the built-in description. *)
Theorem first_definition_wins (a : AgentInfo.t) :
  a ∈ discoverAgents host projectDir ->
  let defined := definitions host (agent_directories host projectDir) in
  (AgentInfo.name a ∈ map AgentInfo.name defined ->
   exists pre post,
     defined = (pre ++ a :: post)%list /\ (AgentInfo.name a ∉ map AgentInfo.name pre)) /\
  (AgentInfo.name a ∉ map AgentInfo.name defined ->
   (AgentInfo.name a = "build" \/ AgentInfo.name a = "plan") /\
   AgentInfo.description a = Some (builtin_description (AgentInfo.name a))).
Proof.
  rewrite discoverAgents_unfold. cbn zeta.
  set (defined := definitions host (agent_directories host projectDir)).
  set (found := foldl push_new [] defined).
  assert (forall n, n ∈ map AgentInfo.name found <-> n ∈ map AgentInfo.name defined) as Hfound.
  { intros n. unfold found. rewrite push_new_names. cbn. rewrite elem_of_nil. tauto. }
  intros [_ Hin]%list_elem_of_filter.
  apply elem_of_app in Hin as [Hin|Hin]; [|apply elem_of_app in Hin as [Hin|Hin]].
  - destruct (has_agent "plan" found) eqn:Hplan; [by apply elem_of_nil in Hin|].
    apply list_elem_of_singleton in Hin as ->. cbn.
    apply has_agent_false in Hplan. rewrite Hfound in Hplan. split; [done|]. tauto.
  - destruct (has_agent "build" found) eqn:Hbuild; [by apply elem_of_nil in Hin|].
    apply list_elem_of_singleton in Hin as ->. cbn.
    apply has_agent_false in Hbuild. rewrite Hfound in Hbuild. split; [done|]. tauto.
  - assert (AgentInfo.name a ∈ map AgentInfo.name defined) as Hdefined.
    { apply Hfound, list_elem_of_fmap. eauto. }
    split; [|done]. intros _.
    apply push_new_first in Hin as [[]%elem_of_nil|(_ & pre & post & Heq & Hpre)].
    by exists pre, post.
Qed.

(** X21. [discoverAgents] lists the built-in agents first, [plan] before
    [build], and then the defined agents in the order of their definitions:
    its result is a sublist of the two built-in agents followed by the
    definitions. *)
Theorem discovered_agents_order :
  discoverAgents host projectDir `sublist_of`
    (AgentInfo.mk "plan" (Some (builtin_description "plan")) ::
     AgentInfo.mk "build" (Some (builtin_description "build")) ::
     definitions host (agent_directories host projectDir)).
Proof.
  rewrite discoverAgents_unfold. cbn zeta.
  etrans; [apply sublist_filter|].
  set (found := foldl push_new [] (definitions host (agent_directories host projectDir))).
  assert (found `sublist_of` definitions host (agent_directories host projectDir)) as Hfound
    by apply (push_new_sublist _ []).
  destruct (has_agent "plan" found), (has_agent "build" found); cbn.
  - by do 2 apply sublist_cons.
  - apply sublist_cons. by apply sublist_skip.
  - apply sublist_skip. by apply sublist_cons.
  - by do 2 apply sublist_skip.
Qed.

End DiscoveryExtras.

(** ** Work is consumed, once *)

(** X22. Staged work runs once.  After the [idle] event that sent the
    relay of a session, a second [idle] event of that session sends no
    prompt; after the [compacted] event that consumed the active compaction
    of a session, a second [compacted] event of that session issues no call
    and changes no store. *)
Theorem continuations_run_once (client1 client2 : Client)
    (JSON_parse : string -> Thrown + JSON) (S : string) (st : Stores) :
  (is_Some (pendingMessages st !! S) ->
   forall c o,
     In (c, o) (calls (event client2 JSON_parse (idle S)
                         (stores (event client1 JSON_parse (idle S) st)))) ->
     is_prompt c = false) /\
  (is_Some (activeCompactions st !! S) ->
   let r1 := event client1 JSON_parse (compacted S) st in
   let r2 := event client2 JSON_parse (compacted S) (stores r1) in
   calls r2 = [] /\ stores r2 = stores r1).
Proof.
  split.
  - intros [pm Hpm].
    assert (stores (event client1 JSON_parse (idle S) st) =
            mkStores (delete S (pendingMessages st)) (pendingCompactions st)
              (activeCompactions st)) as ->.
    { unfold idle. run. rewrite Hpm. run.
      destruct (truthy (PendingMessage.tools pm)); run;
        [destruct (JSON_parse _); run|];
        try destruct (session_prompt client1 _ _ _) as [?|[]]; done. }
    unfold idle. run. rewrite lookup_delete_eq. run.
    destruct (pendingCompactions st !! S) as [pc|]; run.
    + intros c o [Heq|[]]. by simplify_eq.
    + by intros c o [].
  - intros [state Hstate] r1 r2.
    assert (stores r1 =
            mkStores (pendingMessages st) (pendingCompactions st)
              (delete S (activeCompactions st))) as Hr1.
    { subst r1. unfold compacted. run. rewrite Hstate. run.
      destruct (truthy (CompactionState.tools state)); run;
        [destruct (JSON_parse _); run|];
        try destruct (session_prompt client1 _ _ _) as [?|[]]; done. }
    subst r2. rewrite Hr1. unfold compacted. run. rewrite lookup_delete_eq. run. done.
Qed.

(** X23. Events only consume pending work: after any event, every pending
    relay and every pending compaction was pending before the event, with
    the same payload. *)
Theorem events_stage_nothing (client : Client) (JSON_parse : string -> Thrown + JSON)
    (ev : Event.t) (st : Stores) :
  let r := event client JSON_parse ev st in
  pendingMessages (stores r) ⊆ pendingMessages st /\
  pendingCompactions (stores r) ⊆ pendingCompactions st.
Proof.
  intros r. subst r.
  destruct (event_stores client JSON_parse ev st)
    as [->|(S & [->|[->|(pc & _ & ->)]])]; cbn; split; try done; apply delete_subseteq.
Qed.

(** ** Concrete runs of the further properties *)

(** *** The event reactor *)

Lemma event_without_staged_work_witness :
  calls (event unreachable JSON_.parse (idle "ses_1") no_stores) = [] /\
  stores (event unreachable JSON_.parse (idle "ses_1") no_stores) = no_stores.
Proof.
  destruct (event_without_staged_work unreachable JSON_.parse (idle "ses_1") no_stores)
    as (_ & Hstores & Hcalls).
  - intros S HS. split; intros _; [split|]; vm_compute; reflexivity.
  - split; [exact Hcalls|exact Hstores].
Defined.

Lemma relay_then_compaction_witness :
  calls (event (responsive history) JSON_.parse (idle "ses_1")
           (stores (event (busy history) JSON_.parse (idle "ses_1") both_staged))) =
  [(SessionSummarize "ses_1" "/work" "anthropic" "sonnet", NotAwaited)].
Proof.
  destruct (relay_then_compaction (busy history) (responsive history) JSON_.parse "ses_1"
              both_staged
              (PendingMessage.mk (Some "plan") (Some "sonnet") (Some "anthropic")
                 (Some "be brief") (Some "{}") "continue" "/work")
              (CompactionRequest.mk "anthropic" "sonnet" (Some "plan") (Some "be brief")
                 (Some "{}") "continue" "/work"))
    as (_ & _ & _ & Hcalls & _).
  - vm_compute. reflexivity.
  - vm_compute. reflexivity.
  - exact Hcalls.
Defined.



Lemma event_touches_its_session_only_witness :
  pendingMessages
    (stores (event (responsive history) JSON_.parse (idle "ses_2") both_staged)) !! "ses_1" =
  pendingMessages both_staged !! "ses_1".
Proof.
  destruct (event_touches_its_session_only (responsive history) JSON_.parse (idle "ses_2")
              both_staged) as [Hothers _].
  destruct (Hothers "ses_1") as [Hrelays _].
  - discriminate.
  - exact Hrelays.
Defined.

Lemma staged_compactions_name_a_model_witness :
  exists model provider,
    Some (Model.mk (Some "sonnet") (Some "anthropic")) =
    Some (Model.mk (Some model) (Some provider)) /\
    model <> EmptyString /\ provider <> EmptyString.
Proof.
  destruct (staged_compactions_name_a_model JSON_.parse JSON_.stringify
              [(responsive history, Invoke (call_with compact None (Some "{}")) here);
               (responsive history, Deliver (idle "ses_1"))]
              (busy history) "ses_1") as [_ Hprompts].
  apply (Hprompts
           (SessionPrompt "ses_1" "/work"
              (Body.mk None (Some "plan") (Some (Model.mk (Some "sonnet") (Some "anthropic")))
                 (Some "be brief") (Some (JObject [])) [TextPart "continue"]))
           (Threw (ErrorObject "session is busy"))
           ltac:(vm_compute; right; left; reflexivity)
           "ses_1" "/work"
           (Body.mk None (Some "plan") (Some (Model.mk (Some "sonnet") (Some "anthropic")))
              (Some "be brief") (Some (JObject [])) [TextPart "continue"])
           eq_refl).
Defined.

Lemma continuations_run_once_witness :
  calls (event (responsive history) JSON_.parse (compacted "ses_1")
           (stores (event (busy history) JSON_.parse (compacted "ses_1")
                      (compaction_active "{}")))) = [].
Proof.
  destruct (continuations_run_once (busy history) (responsive history) JSON_.parse "ses_1"
              (compaction_active "{}")) as [_ Honce].
  destruct Honce as [Hcalls _].
  - eexists. vm_compute. reflexivity.
  - exact Hcalls.
Defined.

(** *** The workflow engine *)

Lemma execute_stops_at_first_failure_witness :
  exists before o,
    calls (execute (busy history) JSON_.parse JSON_.stringify
             (call_with new None (Some "{}")) here no_stores) =
    (before ++
     [(SessionPrompt "ses_new" "/work"
         (Body.mk None (Some "plan") (Some (Model.mk (Some "sonnet") (Some "anthropic")))
            (Some "be brief") (Some (JObject [])) [TextPart "continue"]),
       Threw (ErrorObject "session is busy"));
      (ShowToast "Session operation failed: session is busy" "error", o)])%list /\
    no_failure before.
Proof.
  apply (execute_stops_at_first_failure (busy history) JSON_.parse JSON_.stringify
           (call_with new None (Some "{}")) here no_stores
           (SessionPrompt "ses_new" "/work"
              (Body.mk None (Some "plan") (Some (Model.mk (Some "sonnet") (Some "anthropic")))
                 (Some "be brief") (Some (JObject [])) [TextPart "continue"]))
           (ErrorObject "session is busy")).
  - vm_compute. right. right. left. reflexivity.
  - reflexivity.
Defined.

Lemma execute_touches_its_session_only_witness :
  pendingMessages
    (stores (execute (responsive history) JSON_.parse JSON_.stringify
               (call_with compact None None) here (relay_staged "{}"))) =
  pendingMessages (relay_staged "{}").
Proof.
  destruct (execute_touches_its_session_only (responsive history) JSON_.parse JSON_.stringify
              (call_with compact None None) here (relay_staged "{}"))
    as (_ & _ & Hrelays & _).
  apply Hrelays. discriminate.
Defined.

Lemma message_mode_only_stages_witness :
  stores (execute unreachable JSON_.parse JSON_.stringify
            (call_with message (Some "plan") None) here (relay_staged "{}")) =
  relay_staged "{}" /\
  map fst (calls (execute unreachable JSON_.parse JSON_.stringify
                    (call_with message (Some "plan") None) here (relay_staged "{}"))) =
  [SessionMessages "ses_1" "/work";
   ShowToast "Session operation failed: backend unreachable" "error"].
Proof.
  exact (message_mode_only_stages unreachable JSON_.parse JSON_.stringify
           (call_with message (Some "plan") None) here (relay_staged "{}") eq_refl).
Defined.

Lemma new_mode_creates_and_prompts_witness :
  result (execute (responsive history) JSON_.parse JSON_.stringify
            (call_with new None (Some "{}")) here no_stores) =
  inr "New session created with plan agent (ID: ses_new)" /\
  map fst (calls (execute (responsive history) JSON_.parse JSON_.stringify
                    (call_with new None (Some "{}")) here no_stores)) =
  [SessionMessages "ses_1" "/work";
   SessionCreate "/work" "Session via plan";
   SessionPrompt "ses_new" "/work"
     (Body.mk None (Some "plan") (Some (Model.mk (Some "sonnet") (Some "anthropic")))
        (Some "be brief") (Some (JObject [])) [TextPart "continue"])].
Proof.
  destruct (new_mode_creates_and_prompts (responsive history) JSON_.parse JSON_.stringify
              (call_with new None (Some "{}")) here no_stores history
              "Session via plan" "plan" "ses_new" (Some (JObject [])))
    as (Hcalls & Hresult & _).
  - reflexivity.
  - reflexivity.
  - intros t [=].
  - intros _. split; [intros a [= <-] _; reflexivity|intros [=]].
  - intros a [= <-] _. reflexivity.
  - intros [=].
  - reflexivity.
  - right. split; [reflexivity|]. exists (JObject []). split; vm_compute; reflexivity.
  - intros body. split; reflexivity.
  - split; [exact Hresult|]. rewrite Hcalls. reflexivity.
Defined.

Lemma fork_mode_forks_and_prompts_witness :
  result (execute (responsive history) JSON_.parse JSON_.stringify
            (Args.mk "continue" fork (Some "build") None (Some "Side track") None None
               None (Some "{}") (Some true))
            here no_stores) =
  inr "Forked session with build agent (async prompt) - history preserved (ID: ses_fork)" /\
  map fst (calls (execute (responsive history) JSON_.parse JSON_.stringify
                    (Args.mk "continue" fork (Some "build") None (Some "Side track") None None
                       None (Some "{}") (Some true))
                    here no_stores)) =
  [SessionMessages "ses_1" "/work";
   SessionFork "ses_1" "/work";
   SessionUpdate "ses_fork" "/work" "Side track";
   SessionPromptAsync "ses_fork" "/work"
     (Body.mk None (Some "build") (Some (Model.mk (Some "sonnet") (Some "anthropic")))
        (Some "be brief") (Some (JObject [])) [TextPart "continue"])].
Proof.
  destruct (fork_mode_forks_and_prompts (responsive history) JSON_.parse JSON_.stringify
              (Args.mk "continue" fork (Some "build") None (Some "Side track") None None
                 None (Some "{}") (Some true))
              here no_stores history "build" "ses_fork" (Some (JObject [])))
    as (Hcalls & Hresult & _).
  - reflexivity.
  - reflexivity.
  - intros a [= <-] _. reflexivity.
  - intros [=].
  - reflexivity.
  - reflexivity.
  - right. split; [reflexivity|]. exists (JObject []). split; vm_compute; reflexivity.
  - intros body. split; reflexivity.
  - split; [exact Hresult|]. rewrite Hcalls. reflexivity.
Defined.

(** *** The reporting tools *)

Lemma session_title_updates_target_witness :
  session_title_execute (responsive history) retitle here =
  mkReport (inr "Session title updated (ID: ses_7)")
    [(Core (SessionUpdate "ses_7" "/work" "Parser work"), Returned)].
Proof.
  destruct (session_title_updates_target (responsive history) retitle here "ses_7")
    as [Hlog Hanswer].
  - intros s [= <-] _. reflexivity.
  - intros [=].
  - destruct (session_title_execute (responsive history) retitle here) as [a l].
    cbn in Hlog, Hanswer. rewrite Hlog, Hanswer. reflexivity.
Defined.

Lemma reporting_tools_report_failures_witness :
  exists c error o,
    In (c, Threw error)
      (log (session_list_execute (responsive history) listings_rejected None here)) /\
    last (log (session_list_execute (responsive history) listings_rejected None here)) =
    Some (Core (ShowToast ("Session list failed: " +:+ error_message error) "error"), o) /\
    answer (session_list_execute (responsive history) listings_rejected None here) =
    inr ("Error: " +:+ error_message error).
Proof.
  destruct (reporting_tools_report_failures (responsive history) listings_rejected retitle
              None None here) as (_ & [_ Hfailed] & _).
  destruct (Hfailed (SessionList "/work") (ErrorObject "no sessions"))
    as (c & error & o & Hin & _ & Hlast & Hanswer).
  - vm_compute. left. reflexivity.
  - reflexivity.
  - exists c, error, o. split; [exact Hin|]. split; [exact Hlast|exact Hanswer].
Defined.

Lemma listings_of_nothing_witness :
  session_list_execute (responsive history) nothing_listed None here =
  mkReport (inr "No sessions found.")
    [(SessionList "/work", Returned); (SessionStatus "/work", Returned)].
Proof.
  destruct (listings_of_nothing (responsive history) nothing_listed None None here)
    as (Hsessions & _).
  apply (Hsessions eq_refl None eq_refl).
Defined.


Lemma last_message_is_latest_witness :
  answer (session_last_message_execute (responsive history) listings None None here) =
  inr ("Last message (assistant) [msg_2]:" +:+ newline
       +:+ "Done." +:+ newline +:+ "Tests pass.").
Proof.
  apply (last_message_is_latest (responsive history) listings None None here []
           [SessionMessage.mk "msg_1" "user" 10 [MessagePart.mk "text" (Some "Go on.")]]
           (SessionMessage.mk "msg_2" "assistant" 20
              [MessagePart.mk "text" (Some "Done."); MessagePart.mk "tool" None;
               MessagePart.mk "text" (Some "Tests pass.")])).
  - reflexivity.
  - constructor.
  - constructor; [cbn; lia|constructor].
Defined.

(** *** Discovery of the agents *)

Lemma first_definition_wins_witness :
  exists pre post,
    definitions host_sample (agent_directories host_sample "/work") =
    (pre ++ AgentInfo.mk "review" (Some "Reviews changes") :: post)%list /\
    ("review" ∉ map AgentInfo.name pre).
Proof.
  destruct (first_definition_wins host_sample "/work"
              (AgentInfo.mk "review" (Some "Reviews changes")))
    as [Hdefined _].
  - vm_compute. constructor.
  - apply Hdefined. vm_compute. constructor.
Defined.
